(** * anker_to_influx.py: telemetry normalisation, daily statistics, collection loop

    A shallow embedding of [src/anker_to_influx.py].  Python values are an
    inductive type, dictionaries are finite maps with string keys, floats are
    IEEE binary64 (Rocq's primitive floats), exceptions are an error type, and
    the calls the script makes to its collaborators (the Anker API, the
    InfluxDB client, the system clock, [time.sleep], [print]) are effects in a
    state-and-error monad whose answers are read from a [World]. *)

From Stdlib Require Import ZArith Lia Floats String Ascii List.
From stdpp Require Import base option list gmap strings fin_maps.

Open Scope Z_scope.

(** ** Python values *)

(** The values the script handles: what a decoded JSON document holds, and
    what the InfluxDB client hands back from [get_value()]. *)
#[warnings="-register-all"]
Inductive pyval :=
| VNone
| VBool (b : bool)
| VInt (z : Z)
| VFloat (f : float)
| VStr (s : string)
| VList (l : list pyval)
| VDict (d : gmap string pyval).

(** The instances of [Exception] the script can meet.  [ApiError] stands for
    whatever the collaborators raise themselves (aiohttp's [ClientError], the
    InfluxDB client's [ApiException], ...).  All of them are caught by
    [except Exception]; only [ValueError] is caught by [except ValueError].
    [KeyboardInterrupt] and [SystemExit] are no instances of [Exception] and
    no outcome of a fetch or a write: they are outside the model. *)
Inductive exn :=
| KeyError (k : pyval)
| IndexError
| ValueError
| TypeError
| AttributeError
| ZeroDivisionError
| OverflowError
| ApiError (msg : string).

Inductive result (A : Type) :=
| Ok (a : A)
| Raise (e : exn).
Arguments Ok {A} a.
Arguments Raise {A} e.

#[global] Instance result_ret : MRet result := fun A a => Ok a.
#[global] Instance result_bind : MBind result := fun A B f m =>
  match m with
  | Ok a => f a
  | Raise e => Raise e
  end.

Definition is_Ok {A} (r : result A) : bool :=
  match r with Ok _ => true | Raise _ => false end.

(** ** Floats *)

Definition fzero : float := 0%float.

(** [float(n)] for an int: the nearest binary64 (ties to even); Python raises
    [OverflowError] when the int is too large for a float. *)
Definition float_of_Z (z : Z) : float :=
  SF2Prim (binary_normalize prec emax z 0 false).

Definition int_to_float (z : Z) : result float :=
  let f := float_of_Z z in
  if PrimFloat.is_infinity f then Raise OverflowError else Ok f.

(** [a / b] on floats: [ZeroDivisionError] when [b == 0] (either zero). *)
Definition float_truediv (a b : float) : result float :=
  if PrimFloat.eqb b fzero then Raise ZeroDivisionError else Ok (PrimFloat.div a b).

(** [float(v)].  For a string, [float(s)] is Python's own parser (blanks,
    sign, digits, exponent, [inf], [nan]); the script only relies on its
    outcome, a float or [ValueError], so the parser is the argument
    [str_to_float]. *)
Definition py_float (str_to_float : string -> option float) (v : pyval) : result float :=
  match v with
  | VFloat f => Ok f
  | VInt z => int_to_float z
  | VBool b => Ok (if b then 1%float else fzero)
  | VStr s => match str_to_float s with Some f => Ok f | None => Raise ValueError end
  | VNone | VList _ | VDict _ => Raise TypeError
  end.

(** Truth value of an object, as [if v:] tests it. *)
Definition py_truthy (v : pyval) : bool :=
  match v with
  | VNone => false
  | VBool b => b
  | VInt z => negb (z =? 0)
  | VFloat f => negb (PrimFloat.eqb f fzero)
  | VStr s => negb (String.eqb s "")
  | VList l => match l with [] => false | _ => true end
  | VDict d => negb (bool_decide (d = ∅))
  end.

(** [l[i]] on a list, with Python's negative indices. *)
Definition list_index {A} (l : list A) (i : Z) : result A :=
  let n := Z.of_nat (length l) in
  let j := if i <? 0 then i + n else i in
  if (0 <=? j) && (j <? n) then
    match l !! Z.to_nat j with Some x => Ok x | None => Raise IndexError end
  else Raise IndexError.

(** [d[k]] on a dict. *)
Definition dict_getitem (d : gmap string pyval) (k : string) : result pyval :=
  match d !! k with
  | Some v => Ok v
  | None => Raise (KeyError (VStr k))
  end.

(** [d.get(k, default)] on a dict. *)
Definition dict_get (d : gmap string pyval) (k : string) (default : pyval) : pyval :=
  match d !! k with
  | Some v => v
  | None => default
  end.

(** [s[i]] on a string: the one-character string at [i]. *)
Definition str_index (s : string) (i : Z) : result pyval :=
  c ← list_index (list_ascii_of_string s) i; Ok (VStr (String c EmptyString)).

(** [v[k]] on any value: dicts are keyed by strings (a key of another type is
    never present), lists and strings take ints, and the remaining types are
    not subscriptable. *)
Definition py_getitem (v : pyval) (k : pyval) : result pyval :=
  match v, k with
  | VDict d, VStr s => dict_getitem d s
  | VDict _, (VNone | VBool _ | VInt _ | VFloat _) => Raise (KeyError k)
  | VDict _, (VList _ | VDict _) => Raise TypeError
  | VList l, VInt i => list_index l i
  | VList l, VBool b => list_index l (if b then 1 else 0)
  | VStr s, VInt i => str_index s i
  | VStr s, VBool b => str_index s (if b then 1 else 0)
  | _, _ => Raise TypeError
  end.

(** [v.get(k, default)]: only dicts have the method. *)
Definition py_get (v : pyval) (k : string) (default : pyval) : result pyval :=
  match v with
  | VDict d => Ok (dict_get d k default)
  | _ => Raise AttributeError
  end.

(** ** Calendar arithmetic of [datetime]

    The proleptic Gregorian calendar as CPython's [datetime] computes it:
    day 1 is 0001-01-01, and [//], [%] are floor division and remainder. *)

Definition MINYEAR : Z := 1.
Definition MAXYEAR : Z := 9999.

Definition DAYS_IN_MONTH : list Z := [-1; 31; 28; 31; 30; 31; 30; 31; 31; 30; 31; 30; 31].
Definition DAYS_BEFORE_MONTH : list Z := [-1; 0; 31; 59; 90; 120; 151; 181; 212; 243; 273; 304; 334].

Definition table_at (t : list Z) (i : Z) : Z := nth (Z.to_nat i) t 0.

Definition is_leap (year : Z) : bool :=
  (year mod 4 =? 0) && (negb (year mod 100 =? 0) || (year mod 400 =? 0)).

Definition days_before_year (year : Z) : Z :=
  let y := year - 1 in y * 365 + y / 4 - y / 100 + y / 400.

Definition days_in_month (year month : Z) : Z :=
  if (month =? 2) && is_leap year then 29 else table_at DAYS_IN_MONTH month.

Definition days_before_month (year month : Z) : Z :=
  table_at DAYS_BEFORE_MONTH month + (if (2 <? month) && is_leap year then 1 else 0).

Definition ymd2ord (year month day : Z) : Z :=
  days_before_year year + days_before_month year month + day.

Definition DI400Y : Z := 146097.
Definition DI100Y : Z := 36524.
Definition DI4Y : Z := 1461.

Definition ord2ymd (n : Z) : Z * Z * Z :=
  let n := n - 1 in
  let n400 := n / DI400Y in
  let n := n mod DI400Y in
  let year := n400 * 400 + 1 in
  let n100 := n / DI100Y in
  let n := n mod DI100Y in
  let n4 := n / DI4Y in
  let n := n mod DI4Y in
  let n1 := n / 365 in
  let n := n mod 365 in
  let year := year + n100 * 100 + n4 * 4 + n1 in
  if (n1 =? 4) || (n100 =? 4) then (year - 1, 12, 31)
  else
    let leapyear := (n1 =? 3) && (negb (n4 =? 24) || (n100 =? 3)) in
    let month := Z.shiftr (n + 50) 5 in
    let preceding :=
      table_at DAYS_BEFORE_MONTH month + (if (2 <? month) && leapyear then 1 else 0) in
    if n <? preceding then
      let month := month - 1 in
      let preceding :=
        preceding - (table_at DAYS_IN_MONTH month
                     + (if (month =? 2) && leapyear then 1 else 0)) in
      (year, month, n - preceding + 1)
    else (year, month, n - preceding + 1).

(** A naive [datetime] (no tzinfo). *)
Record datetime := {
  year : Z;
  month : Z;
  day : Z;
  hour : Z;
  minute : Z;
  second : Z;
  microsecond : Z;
  fold : Z
}.

(** The checks of the [datetime] constructor. *)
Definition valid_date (y m d : Z) : bool :=
  (MINYEAR <=? y) && (y <=? MAXYEAR) && (1 <=? m) && (m <=? 12)
  && (1 <=? d) && (d <=? days_in_month y m).

Definition valid_time (hh mm ss us : Z) : bool :=
  (0 <=? hh) && (hh <=? 23) && (0 <=? mm) && (mm <=? 59)
  && (0 <=? ss) && (ss <=? 59) && (0 <=? us) && (us <=? 999999).

(** [datetime(y, m, d, hh, mm, ss, us)], fold 0. *)
Definition mk_datetime (y m d hh mm ss us : Z) : result datetime :=
  if valid_date y m d && valid_time hh mm ss us then
    Ok {| year := y; month := m; day := d; hour := hh; minute := mm;
          second := ss; microsecond := us; fold := 0 |}
  else Raise ValueError.

(** [dt.replace(hour=0, minute=0, second=0)]: the other fields, [fold]
    included, are kept. *)
Definition replace_hms (dt : datetime) (hh mm ss : Z) : result datetime :=
  if valid_date (year dt) (month dt) (day dt) && valid_time hh mm ss (microsecond dt) then
    Ok {| year := year dt; month := month dt; day := day dt; hour := hh;
          minute := mm; second := ss; microsecond := microsecond dt;
          fold := fold dt |}
  else Raise ValueError.

(** Day number of 1970-01-01. *)
Definition EPOCH_ORD : Z := 719163.

(** [(dt - datetime(1970, 1, 1)) // timedelta(0, 1)]: the seconds from the
    epoch to [dt], both read as naive times. *)
Definition seconds_since_epoch (dt : datetime) : Z :=
  (ymd2ord (year dt) (month dt) (day dt) - EPOCH_ORD) * 86400
  + hour dt * 3600 + minute dt * 60 + second dt.

(** ** Local time

    The process's time zone is the function [utcoffset]: the offset from UTC,
    in seconds, in force at a given instant (Unix seconds).  [time.localtime]
    breaks the shifted instant into calendar fields. *)

Section LocalTime.

Variable utcoffset : Z -> Z.

(** [time.localtime(u)[:6]] *)
Definition localtime (u : Z) : Z * Z * Z * Z * Z * Z :=
  let s := u + utcoffset u in
  let '(y, m, d) := ord2ymd (s / 86400 + EPOCH_ORD) in
  let r := s mod 86400 in
  (y, m, d, r / 3600, (r mod 3600) / 60, r mod 60).

(** [local(u)] of [datetime._mktime]: the local time at [u] as naive seconds
    since the epoch.  It builds a [datetime], so a year outside 1..9999 is a
    [ValueError]. *)
Definition local (u : Z) : result Z :=
  let '(y, m, d, hh, mm, ss) := localtime u in
  dt ← mk_datetime y m d hh mm ss 0;
  Ok (seconds_since_epoch dt).

Definition max_fold_seconds : Z := 24 * 3600.

Definition datetime_eqb (a b : datetime) : bool :=
  (year a =? year b) && (month a =? month b) && (day a =? day b)
  && (hour a =? hour b) && (minute a =? minute b) && (second a =? second b)
  && (microsecond a =? microsecond b).

Definition set_fold (dt : datetime) (f : Z) : datetime :=
  {| year := year dt; month := month dt; day := day dt; hour := hour dt;
     minute := minute dt; second := second dt; microsecond := microsecond dt;
     fold := f |}.

(** [datetime.fromtimestamp(t)] for a timestamp of [t] seconds and [us]
    microseconds, no tz: the local time at [t], with [fold] set when that
    local time is the second of two equal readings of the clock. *)
Definition fromtimestamp (t us : Z) : result datetime :=
  let '(y, m, d, hh, mm, ss) := localtime t in
  res ← mk_datetime y m d hh mm (Z.min ss 59) us;
  let '(y, m, d, hh, mm, ss) := localtime (t - max_fold_seconds) in
  probe1 ← mk_datetime y m d hh mm ss us;
  let trans := seconds_since_epoch res - seconds_since_epoch probe1 - max_fold_seconds in
  if trans <? 0 then
    let '(y, m, d, hh, mm, ss) := localtime (t + trans) in
    probe2 ← mk_datetime y m d hh mm ss us;
    Ok (if datetime_eqb probe2 res then set_fold res 1 else res)
  else Ok res.

(** [dt._mktime()]: solve [local(u) = t] for [u], where [t] is [dt] read as
    seconds since the epoch; of two solutions [fold] picks one, and a time
    that the local clock skipped is moved across the gap. *)
Definition mktime (dt : datetime) : result Z :=
  let t := seconds_since_epoch dt in
  lt ← local t;
  let a := lt - t in
  let u1 := t - a in
  t1 ← local u1;
  found ← (if t1 =? t then
             let u2 := u1 + (if fold dt =? 0 then - max_fold_seconds else max_fold_seconds) in
             lu2 ← local u2;
             let b := lu2 - u2 in
             Ok (if a =? b then inl u1 else inr b)
           else Ok (inr (t1 - u1)));
  match found with
  | inl u => Ok u
  | inr b =>
      let u2 := t - b in
      t2 ← local u2;
      if t2 =? t then Ok u2
      else if t1 =? t then Ok u1
      else Ok (if fold dt =? 0 then Z.max u1 u2 else Z.min u1 u2)
  end.

(** [int(dt.timestamp())]: [timestamp()] is the float
    [_mktime() + microsecond / 1e6] and [int] truncates towards zero.  A
    binary64 holds that sum to well under a microsecond for every [datetime],
    so the truncation is computed on the exact value. *)
Definition int_timestamp (dt : datetime) : result Z :=
  s ← mktime dt;
  Ok (Z.quot (s * 1000000 + microsecond dt) 1000000).

End LocalTime.

(** ** [datetime.strptime(s, '%Y-%m-%d %H:%M:%S')]

    [_strptime] turns the format into the regular expression
    [(?P<Y>\d\d\d\d)-(?P<m>1[0-2]|0[1-9]|[1-9])-(?P<d>3[0-1]|[1-2]\d|0[1-9]|[1-9]| [1-9])\s+(?P<H>2[0-3]|[0-1]\d|\d):(?P<M>[0-5]\d|\d):(?P<S>6[0-1]|[0-5]\d|\d)],
    takes its first match at the start of the string, refuses a match that
    leaves text over, and builds the [datetime] from the groups.  A matcher
    is a function from the text to its matches, first choice first.  Strings
    hold code points below 256, where [\d] is [0-9]. *)

Definition matcher (A : Type) := list ascii -> list (A * list ascii).

Definition code (c : ascii) : Z := Z.of_nat (nat_of_ascii c).

Definition m_char (c0 : ascii) : matcher unit := fun s =>
  match s with
  | c :: r => if Ascii.eqb c c0 then [(tt, r)] else []
  | [] => []
  end.

(** [[lo-hi]] for digits [lo], [hi]; the match is the digit's value. *)
Definition m_digit (lo hi : Z) : matcher Z := fun s =>
  match s with
  | c :: r => let v := code c - 48 in
              if (lo <=? v) && (v <=? hi) then [(v, r)] else []
  | [] => []
  end.

Definition m_two (a b : matcher Z) : matcher Z := fun s =>
  '(x, r) ← a s; '(y, r') ← b r; [(10 * x + y, r')].

Definition m_alt {A} (ms : list (matcher A)) : matcher A := fun s =>
  m ← ms; m s.

(** [\s] *)
Definition is_space (c : ascii) : bool :=
  bool_decide (code c ∈ [9; 10; 11; 12; 13; 28; 29; 30; 31; 32; 133; 160]).

(** [\s*] and [\s+], greedy: the longest run first. *)
Fixpoint m_spaces0 (s : list ascii) : list (unit * list ascii) :=
  match s with
  | c :: r => (if is_space c then m_spaces0 r else []) ++ [(tt, s)]
  | [] => [(tt, [])]
  end.

Definition m_spaces1 : matcher unit := fun s =>
  match s with
  | c :: r => if is_space c then m_spaces0 r else []
  | [] => []
  end.

Definition re_Y : matcher Z := fun s =>
  '(a, s) ← m_digit 0 9 s; '(b, s) ← m_digit 0 9 s;
  '(c, s) ← m_digit 0 9 s; '(d, s) ← m_digit 0 9 s;
  [(1000 * a + 100 * b + 10 * c + d, s)].

Definition re_m : matcher Z :=
  m_alt [m_two (m_digit 1 1) (m_digit 0 2); m_two (m_digit 0 0) (m_digit 1 9); m_digit 1 9].

Definition re_d : matcher Z :=
  m_alt [m_two (m_digit 3 3) (m_digit 0 1); m_two (m_digit 1 2) (m_digit 0 9);
         m_two (m_digit 0 0) (m_digit 1 9); m_digit 1 9;
         (fun s => '(_, s) ← m_char " " s; m_digit 1 9 s)].

Definition re_H : matcher Z :=
  m_alt [m_two (m_digit 2 2) (m_digit 0 3); m_two (m_digit 0 1) (m_digit 0 9); m_digit 0 9].

Definition re_M : matcher Z :=
  m_alt [m_two (m_digit 0 5) (m_digit 0 9); m_digit 0 9].

Definition re_S : matcher Z :=
  m_alt [m_two (m_digit 6 6) (m_digit 0 1); m_two (m_digit 0 5) (m_digit 0 9); m_digit 0 9].

(** A piece of the expression and the separator after it. *)
Definition followed_by {A B} (a : matcher A) (b : matcher B) : matcher A := fun s =>
  '(x, s) ← a s; '(_, s) ← b s; [(x, s)].

Definition format_regex : matcher (Z * Z * Z * Z * Z * Z) := fun s =>
  '(Y, s) ← followed_by re_Y (m_char "-") s;
  '(m, s) ← followed_by re_m (m_char "-") s;
  '(d, s) ← followed_by re_d m_spaces1 s;
  '(hh, s) ← followed_by re_H (m_char ":") s;
  '(mm, s) ← followed_by re_M (m_char ":") s;
  '(ss, s) ← re_S s;
  [((Y, m, d, hh, mm, ss), s)].

(** [datetime.strptime(v, '%Y-%m-%d %H:%M:%S')]: [TypeError] unless [v] is a
    str; [ValueError] when the text does not match, when text is left over,
    or when the fields are no date and time ([date(year, month, day)] and
    the [datetime] constructor check them). *)
Definition strptime (v : pyval) : result datetime :=
  match v with
  | VStr data_string =>
      match format_regex (list_ascii_of_string data_string) with
      | [] => Raise ValueError
      | ((Y, m, d, hh, mm, ss), rest) :: _ =>
          match rest with
          | [] => mk_datetime Y m d hh mm ss 0
          | _ :: _ => Raise ValueError
          end
      end
  | _ => Raise TypeError
  end.

(** ** The collaborators *)

(** The module-level configuration, read from the environment. *)
Record Config := {
  ANKER_COUNTRY : option string;
  ANKER_EMAIL : option string;
  ANKER_PASSWORD : option string;
  INFLUX_URL : option string;
  INFLUX_TOKEN : option string;
  INFLUX_ORG : option string;
  INFLUX_BUCKET : option string
}.

(** What [query_api.query] returns: a list of tables, each with its records. *)
Record FluxRecord := { get_value : pyval }.
Record FluxTable := { records : list FluxRecord }.

(** The Flux text the script sends, by the values it formats into the
    template: [from(bucket) |> range(start) |> filter(_measurement) |>
    filter(site_name) |> filter(_field) |> integral(unit: 1h) |> yield(name)]. *)
Record Query := {
  query_bucket : option string;
  query_start : Z;
  query_measurement : string;
  query_site_name : pyval;
  query_field : string;
  query_yield : string
}.

Inductive WritePrecision := PrecisionNS | PrecisionUS | PrecisionMS | PrecisionS.

(** [influxdb_client.Point] *)
Record Point := {
  point_name : string;
  point_tags : gmap string pyval;
  point_fields : gmap string pyval;
  point_time : option pyval;
  point_precision : WritePrecision
}.

Definition new_point (name : string) : Point :=
  {| point_name := name; point_tags := ∅; point_fields := ∅;
     point_time := None; point_precision := PrecisionNS |}.

Definition tag (key : string) (value : pyval) (p : Point) : Point :=
  {| point_name := point_name p; point_tags := <[key := value]> (point_tags p);
     point_fields := point_fields p; point_time := point_time p;
     point_precision := point_precision p |}.

Definition field (key : string) (value : pyval) (p : Point) : Point :=
  {| point_name := point_name p; point_tags := point_tags p;
     point_fields := <[key := value]> (point_fields p); point_time := point_time p;
     point_precision := point_precision p |}.

Definition time (t : pyval) (precision : WritePrecision) (p : Point) : Point :=
  {| point_name := point_name p; point_tags := point_tags p;
     point_fields := point_fields p; point_time := Some t;
     point_precision := precision |}.

(** What the script prints, by the values it formats into the text. *)
Inductive message :=
| MsgStatsError (exception : exn)
| MsgWritten (iteration max : Z)
| MsgNoData (iteration max : Z)
| MsgError (error : exn)
| MsgCompleted (iterations : Z).

(** The calls that leave the process. *)
Inductive event :=
| EvUpdateSites
| EvClock
| EvQuery (org : option string) (query : Query)
| EvWrite (bucket org : option string) (record : Point)
| EvClose
| EvSleep (seconds : Z)
| EvPrint (m : message).

(** Everything outside the script.  The answers of the collaborators are
    indexed by the number of calls made before: the n-th call may answer or
    raise as it likes.  [float_to_timeval] is the C conversion of a float
    timestamp to seconds and microseconds, which the script never needs (its
    timestamps are ints). *)
Record World := {
  config : Config;
  str_to_float : string -> option float;
  float_to_timeval : float -> result (Z * Z);
  utcoffset : Z -> Z;
  clock : nat -> Z * Z;
  update_sites : nat -> result (list (gmap string pyval));
  store_query : nat -> option string -> Query -> result (list FluxTable);
  store_write : nat -> option string -> option string -> Point -> result unit
}.

(** ** The monad of the script: state and exceptions *)

Record State := { tick : nat; trace : list event }.

Definition initial : State := {| tick := 0; trace := [] |}.

Definition M (A : Type) : Type := State -> result A * State.

#[global] Instance M_ret : MRet M := fun A a st => (Ok a, st).
#[global] Instance M_bind : MBind M := fun A B f m st =>
  match m st with
  | (Ok a, st') => f a st'
  | (Raise e, st') => (Raise e, st')
  end.

Definition lift {A} (r : result A) : M A := fun st => (r, st).

(** A call to a collaborator: it is recorded, and its answer is the world's
    for this call. *)
Definition call {A} (ev : event) (answer : nat -> result A) : M A := fun st =>
  (answer (tick st), {| tick := S (tick st); trace := trace st ++ [ev] |}).

(** [try: body / except <class> as e: handler e]; [handler e] is [None] when
    the clause does not catch [e]. *)
Definition try_except {A} (body : M A) (handler : exn -> option (M A)) : M A := fun st =>
  match body st with
  | (Ok a, st') => (Ok a, st')
  | (Raise e, st') =>
      match handler e with
      | Some h => h st'
      | None => (Raise e, st')
      end
  end.

(** [try: body / finally: final]: [final] runs on both exits and a pending
    exception goes on after it.  [final] returns the local variables it
    assigns. *)
Definition try_finally {A B} (body : M A) (final : M B) : M B := fun st =>
  match body st with
  | (Ok _, st') => final st'
  | (Raise e, st') =>
      match final st' with
      | (Ok _, st'') => (Raise e, st'')
      | (Raise e', st'') => (Raise e', st'')
      end
  end.

Definition print (m : message) : M unit := call (EvPrint m) (fun _ => Ok tt).
Definition sleep (seconds : Z) : M unit := call (EvSleep seconds) (fun _ => Ok tt).
Definition time_time (w : World) : M (Z * Z) := call EvClock (fun n => Ok (clock w n)).

(** [datetime.now()] *)
Definition now (w : World) : M datetime :=
  '(s, us) ← time_time w; lift (fromtimestamp (utcoffset w) s us).

(** [datetime.fromtimestamp(v)] on a value. *)
Definition py_fromtimestamp (w : World) (v : pyval) : result datetime :=
  match v with
  | VInt t => fromtimestamp (utcoffset w) t 0
  | VBool b => fromtimestamp (utcoffset w) (if b then 1 else 0) 0
  | VFloat f => '(t, us) ← float_to_timeval w f; fromtimestamp (utcoffset w) t us
  | VNone | VStr _ | VList _ | VDict _ => Raise TypeError
  end.

(** ** [calculate_daily_stats] *)

Definition integral_query (w : World) (start_timestamp : Z) (site_name : pyval)
    (field_name yield_name : string) : Query :=
  {| query_bucket := INFLUX_BUCKET (config w); query_start := start_timestamp;
     query_measurement := "anker_power"; query_site_name := site_name;
     query_field := field_name; query_yield := yield_name |}.

Definition query (w : World) (q : Query) : M (list FluxTable) :=
  call (EvQuery (INFLUX_ORG (config w)) q)
       (fun n => store_query w n (INFLUX_ORG (config w)) q).

(** [float(tables[0].records[0].get_value() if tables else 0.0)], for the
    tables a query returned. *)
Definition extract_value (w : World) (tables : list FluxTable) : result float :=
  v ← match tables with
      | [] => Ok (VFloat fzero)
      | _ :: _ =>
          table ← list_index tables 0;
          record ← list_index (records table) 0;
          Ok (get_value record)
      end;
  py_float (str_to_float w) v.

(** [float(self_consumed / denominator * 100) if denominator > 0 else 0.0] *)
Definition percent_of (self_consumed denominator : float) : result float :=
  if PrimFloat.ltb fzero denominator then
    q ← float_truediv self_consumed denominator;
    Ok (PrimFloat.mul q 100%float)
  else Ok fzero.

(** Lines 76-88: the statistics from the three integrals. *)
Definition daily_stats_of (daily_consumption daily_generation grid_import : float)
    : result (gmap string float) :=
  let self_consumed := PrimFloat.sub daily_consumption grid_import in
  autarky ← percent_of self_consumed daily_consumption;
  self_consumption ← percent_of self_consumed daily_generation;
  Ok (list_to_map [("daily_consumption", daily_consumption);
                   ("daily_generation", daily_generation);
                   ("autarky", autarky);
                   ("self_consumption", self_consumption)]).

(** Lines 72-88: the statistics from the three query results. *)
Definition stats_of_results (w : World)
    (consumption_result generation_result grid_import_result : list FluxTable)
    : result (gmap string float) :=
  daily_consumption ← extract_value w consumption_result;
  daily_generation ← extract_value w generation_result;
  grid_import ← extract_value w grid_import_result;
  daily_stats_of daily_consumption daily_generation grid_import.

(** Lines 30-31: [int(datetime.fromtimestamp(current_timestamp)
    .replace(hour=0, minute=0, second=0).timestamp())]. *)
Definition start_of_day (w : World) (current_timestamp : pyval) : result Z :=
  dt ← py_fromtimestamp w current_timestamp;
  start_time ← replace_hms dt 0 0 0;
  int_timestamp (utcoffset w) start_time.

Definition consumption_query (w : World) (start_timestamp : Z) (site_name : pyval) : Query :=
  integral_query w start_timestamp site_name "home_load_power" "daily_consumption".
Definition generation_query (w : World) (start_timestamp : Z) (site_name : pyval) : Query :=
  integral_query w start_timestamp site_name "total_photovoltaic_power" "daily_generation".
Definition grid_import_query (w : World) (start_timestamp : Z) (site_name : pyval) : Query :=
  integral_query w start_timestamp site_name "grid_to_home_power" "grid_import".

Definition calculate_daily_stats (w : World) (site_name current_timestamp : pyval)
    : M (option (gmap string float)) :=
  start_timestamp ← lift (start_of_day w current_timestamp);
  try_except
    (consumption_result ← query w (consumption_query w start_timestamp site_name);
     generation_result ← query w (generation_query w start_timestamp site_name);
     grid_import_result ← query w (grid_import_query w start_timestamp site_name);
     stats ← lift (stats_of_results w consumption_result generation_result
                     grid_import_result);
     mret (Some stats))
    (fun exception => Some (print (MsgStatsError exception);; mret None)).

(** ** [parse_timestamp] *)

Definition parse_timestamp (w : World) (timestamp_str : pyval) : M Z :=
  try_except
    (dt ← lift (strptime timestamp_str);
     lift (int_timestamp (utcoffset w) dt))
    (fun e => match e with
              | ValueError => Some (dt ← now w; lift (int_timestamp (utcoffset w) dt))
              | _ => None
              end).

(** ** [fetch_anker_data] *)

(** [float(d.get(k, 0.0))] *)
Definition get_float (w : World) (d : pyval) (k : string) : result float :=
  v ← py_get d k (VFloat fzero); py_float (str_to_float w) v.

(** Lines 110-115: [(battery_charge_power, battery_percentage)], from the
    first solar bank if [info['solarbank_list']] is true, else both [0.0]. *)
Definition battery_readings (w : World) (info : pyval) : result (float * float) :=
  solarbank_list ← py_getitem info (VStr "solarbank_list");
  if py_truthy solarbank_list then
    solarbank_list ← py_getitem info (VStr "solarbank_list");
    first_bank ← py_getitem solarbank_list (VInt 0);
    charging_power ← py_getitem first_bank (VStr "charging_power");
    battery_charge_power ← py_float (str_to_float w) charging_power;
    battery_power ← py_getitem first_bank (VStr "battery_power");
    battery_percentage ← py_float (str_to_float w) battery_power;
    Ok (battery_charge_power, battery_percentage)
  else Ok (fzero, fzero).

(** The record of lines 119-137. *)
Definition reading_dict (site_name : pyval)
    (total_photovoltaic_power solar_power_1 solar_power_2 solar_power_3 solar_power_4
     battery_percentage battery_charge_power home_load_power grid_to_home_power
     photovoltaic_to_grid_power to_home_load ac_power : float) (timestamp : Z)
    : gmap string pyval :=
  list_to_map
    [("site_name", site_name);
     ("total_photovoltaic_power", VFloat total_photovoltaic_power);
     ("solar_power_1", VFloat solar_power_1);
     ("solar_power_2", VFloat solar_power_2);
     ("solar_power_3", VFloat solar_power_3);
     ("solar_power_4", VFloat solar_power_4);
     ("battery_percentage", VFloat battery_percentage);
     ("battery_charge_power", VFloat battery_charge_power);
     ("home_load_power", VFloat home_load_power);
     ("grid_to_home_power", VFloat grid_to_home_power);
     ("photovoltaic_to_grid_power", VFloat photovoltaic_to_grid_power);
     ("to_home_load", VFloat to_home_load);
     ("ac_power", VFloat ac_power);
     ("timestamp", VInt timestamp)].

(** The body of [if 'solarbank_info' in site:], up to the record it appends
    (lines 106-137, in the order Python evaluates them). *)
Definition site_reading (w : World) (site : gmap string pyval) : M (gmap string pyval) :=
  info ← lift (dict_getitem site "solarbank_info");
  let grid_info := dict_get site "grid_info" (VDict ∅) in
  '(battery_charge_power, battery_percentage) ← lift (battery_readings w info);
  updated_time ← lift (py_getitem info (VStr "updated_time"));
  timestamp ← parse_timestamp w updated_time;
  site_info ← lift (dict_getitem site "site_info");
  site_name ← lift (py_getitem site_info (VStr "site_name"));
  total_photovoltaic_power ←
    lift (v ← py_getitem info (VStr "total_photovoltaic_power");
          py_float (str_to_float w) v);
  solar_power_1 ← lift (get_float w info "solar_power_1");
  solar_power_2 ← lift (get_float w info "solar_power_2");
  solar_power_3 ← lift (get_float w info "solar_power_3");
  solar_power_4 ← lift (get_float w info "solar_power_4");
  home_load_power ←
    lift (py_float (str_to_float w) (dict_get site "home_load_power" (VFloat fzero)));
  grid_to_home_power ← lift (get_float w grid_info "grid_to_home_power");
  photovoltaic_to_grid_power ← lift (get_float w grid_info "photovoltaic_to_grid_power");
  to_home_load ← lift (get_float w info "to_home_load");
  ac_power ← lift (get_float w info "ac_power");
  mret (reading_dict site_name total_photovoltaic_power solar_power_1 solar_power_2
          solar_power_3 solar_power_4 battery_percentage battery_charge_power
          home_load_power grid_to_home_power photovoltaic_to_grid_power to_home_load
          ac_power timestamp).

(** ['solarbank_info' in site] *)
Definition has_solarbank_info (site : gmap string pyval) : bool :=
  bool_decide (is_Some (site !! "solarbank_info")).

(** [for site in anker_api.sites.values(): ...], from the records appended
    so far. *)
Fixpoint for_sites (w : World) (sites : list (gmap string pyval))
    (power_data : list (gmap string pyval)) : M (list (gmap string pyval)) :=
  match sites with
  | [] => mret power_data
  | site :: sites =>
      power_data ← (if has_solarbank_info site then
                      data ← site_reading w site;
                      mret (power_data ++ [data])
                    else mret power_data);
      for_sites w sites power_data
  end.

Definition fetch_anker_data (w : World) : M (list (gmap string pyval)) :=
  sites ← call EvUpdateSites (update_sites w);
  for_sites w sites [].

(** ** [write_to_influx] *)

Definition write (w : World) (record : Point) : M unit :=
  call (EvWrite (INFLUX_BUCKET (config w)) (INFLUX_ORG (config w)) record)
       (fun n => store_write w n (INFLUX_BUCKET (config w)) (INFLUX_ORG (config w)) record).

(** [point.field(name, site_data[name])] *)
Definition field_from (site_data : gmap string pyval) (name : string) (p : Point)
    : result Point :=
  v ← dict_getitem site_data name; Ok (field name v p).

Definition power_fields : list string :=
  ["total_photovoltaic_power"; "solar_power_1"; "solar_power_2"; "solar_power_3";
   "solar_power_4"; "battery_percentage"; "battery_charge_power"; "home_load_power";
   "grid_to_home_power"; "photovoltaic_to_grid_power"; "to_home_load"; "ac_power"].

(** The [anker_power] point of one record (lines 159-178). *)
Definition power_point (site_data : gmap string pyval) : result Point :=
  let p := new_point "anker_power" in
  site_name ← dict_getitem site_data "site_name";
  let p := tag "site_name" site_name p in
  p ← field_from site_data "total_photovoltaic_power" p;
  p ← field_from site_data "solar_power_1" p;
  p ← field_from site_data "solar_power_2" p;
  p ← field_from site_data "solar_power_3" p;
  p ← field_from site_data "solar_power_4" p;
  p ← field_from site_data "battery_percentage" p;
  p ← field_from site_data "battery_charge_power" p;
  p ← field_from site_data "home_load_power" p;
  p ← field_from site_data "grid_to_home_power" p;
  p ← field_from site_data "photovoltaic_to_grid_power" p;
  p ← field_from site_data "to_home_load" p;
  p ← field_from site_data "ac_power" p;
  timestamp ← dict_getitem site_data "timestamp";
  Ok (time timestamp PrecisionS p).

(** [daily_stats[name]] *)
Definition stats_getitem (daily_stats : gmap string float) (name : string) : result float :=
  match daily_stats !! name with
  | Some f => Ok f
  | None => Raise (KeyError (VStr name))
  end.

(** [daily_stats[name] / 1000] *)
Definition kwh (daily_stats : gmap string float) (name : string) : result float :=
  wh ← stats_getitem daily_stats name; float_truediv wh 1000%float.

(** The [anker_daily_stats] point (lines 189-197). *)
Definition stats_point (site_data : gmap string pyval) (daily_stats : gmap string float)
    : result Point :=
  let p := new_point "anker_daily_stats" in
  site_name ← dict_getitem site_data "site_name";
  let p := tag "site_name" site_name p in
  v ← kwh daily_stats "daily_consumption";
  let p := field "daily_consumption_kwh" (VFloat v) p in
  v ← kwh daily_stats "daily_generation";
  let p := field "daily_generation_kwh" (VFloat v) p in
  v ← stats_getitem daily_stats "autarky";
  let p := field "autarky_percent" (VFloat v) p in
  v ← stats_getitem daily_stats "self_consumption";
  let p := field "self_consumption_percent" (VFloat v) p in
  timestamp ← dict_getitem site_data "timestamp";
  Ok (time timestamp PrecisionS p).

(** The body of [for site_data in data:]. *)
Definition write_site (w : World) (site_data : gmap string pyval) : M unit :=
  point ← lift (power_point site_data);
  write w point;;
  site_name ← lift (dict_getitem site_data "site_name");
  timestamp ← lift (dict_getitem site_data "timestamp");
  daily_stats ← calculate_daily_stats w site_name timestamp;
  match daily_stats with
  | Some stats =>
      if bool_decide (stats = ∅) then mret tt
      else point ← lift (stats_point site_data stats); write w point
  | None => mret tt
  end.

Fixpoint for_site_data (w : World) (data : list (gmap string pyval)) : M unit :=
  match data with
  | [] => mret tt
  | site_data :: data => write_site w site_data;; for_site_data w data
  end.

Definition write_to_influx (w : World) (data : list (gmap string pyval)) : M unit :=
  try_finally (for_site_data w data) (call EvClose (fun _ => Ok tt)).

(** ** The collection loop ([__main__]) *)

Definition delay : Z := 9.
Definition max_iterations : Z := 6.

(** One pass of the [while] body; it returns the new value of [iterations]. *)
Definition cycle (w : World) (delay iterations max_iterations : Z) : M Z :=
  try_finally
    (try_except
       (data ← fetch_anker_data w;
        match data with
        | _ :: _ =>
            write_to_influx w data;;
            now w;;
            print (MsgWritten (iterations + 1) max_iterations)
        | [] => print (MsgNoData (iterations + 1) max_iterations)
        end)
       (fun error => Some (print (MsgError error))))
    (let iterations := iterations + 1 in
     (if iterations <? max_iterations then sleep delay else mret tt);;
     mret iterations).

(** [while iterations < max_iterations: ...], unrolled at most [fuel] times:
    [None] when the fuel runs out before the condition fails. *)
Fixpoint while_loop (w : World) (fuel : nat) (delay iterations max_iterations : Z)
    : M (option Z) :=
  if iterations <? max_iterations then
    match fuel with
    | O => mret None
    | S fuel =>
        iterations ← cycle w delay iterations max_iterations;
        while_loop w fuel delay iterations max_iterations
    end
  else mret (Some iterations).

Definition main (w : World) (fuel : nat) : M (option Z) :=
  time_time w;;
  done ← while_loop w fuel delay 0 max_iterations;
  match done with
  | Some iterations =>
      time_time w;;
      print (MsgCompleted iterations);;
      mret (Some iterations)
  | None => mret None
  end.

(** * Vocabulary of the statements *)

(** ** Calendar checks *)

(** [f] holds on the [p] integers from [lo] on. *)
Fixpoint all_from (p : positive) (f : Z -> bool) (lo : Z) : bool :=
  match p with
  | xH => f lo
  | xO q => all_from q f lo && all_from q f (lo + Zpos q)
  | xI q => f lo && all_from q f (lo + 1) && all_from q f (lo + 1 + Zpos q)
  end.

Definition month_day_ok (y m d : Z) : bool :=
  (1 <=? m) && (m <=? 12) && (1 <=? d) && (d <=? days_in_month y m).

(** Day number [n] splits into a month and a day that exist, and they give
    [n] back. *)
Definition ord_ok (n : Z) : bool :=
  let '(y, m, d) := ord2ymd n in month_day_ok y m d && (ymd2ord y m d =? n).

(** The month and day of the [n]-th day (from 0) of a year, as the last
    lines of [ord2ymd] find them. *)
Definition month_day (n : Z) (leapyear : bool) : Z * Z :=
  let month := Z.shiftr (n + 50) 5 in
  let preceding :=
    table_at DAYS_BEFORE_MONTH month + (if (2 <? month) && leapyear then 1 else 0) in
  if n <? preceding then
    let month := month - 1 in
    let preceding :=
      preceding - (table_at DAYS_IN_MONTH month
                   + (if (month =? 2) && leapyear then 1 else 0)) in
    (month, n - preceding + 1)
  else (month, n - preceding + 1).

(** [month_day] gives a month and a day that exist and count up to [n]. *)
Definition month_day_check (leapyear : bool) (n : Z) : bool :=
  let '(m, d) := month_day n leapyear in
  (1 <=? m) && (m <=? 12) && (1 <=? d)
  && (d <=? (if (m =? 2) && leapyear then 29 else table_at DAYS_IN_MONTH m))
  && (table_at DAYS_BEFORE_MONTH m + (if (2 <? m) && leapyear then 1 else 0) + d =? n + 1).


(** The naive seconds since the epoch of [datetime.min] and [datetime.max]. *)
Definition MIN_SECONDS : Z := (1 - EPOCH_ORD) * 86400.
Definition MAX_SECONDS : Z := (3652059 - EPOCH_ORD) * 86400 + 86399.

(** The [datetime] that is [s] naive seconds after the epoch. *)
Definition civil (s us : Z) : datetime :=
  let '(y, m, d) := ord2ymd (s / 86400 + EPOCH_ORD) in
  let r := s mod 86400 in
  {| year := y; month := m; day := d; hour := r / 3600; minute := (r mod 3600) / 60;
     second := r mod 60; microsecond := us; fold := 0 |}.

(** The zone keeps the offset [off] at every instant from [lo] to [hi]. *)
Definition steady (tz : Z -> Z) (off lo hi : Z) : Prop :=
  forall u, lo <= u <= hi -> tz u = off.

(** ** Timestamps in the strict format *)

Definition digit_char (v : Z) : ascii := ascii_of_nat (Z.to_nat (48 + v)).

Definition digits2 (n : Z) : list ascii := [digit_char (n / 10); digit_char (n mod 10)].

Definition digits4 (n : Z) : list ascii :=
  [digit_char (n / 1000); digit_char (n / 100 mod 10);
   digit_char (n / 10 mod 10); digit_char (n mod 10)].

(** [YYYY-MM-DD HH:MM:SS] *)
Definition strict_format (Y m d hh mm ss : Z) : string :=
  string_of_list_ascii
    (digits4 Y ++ "-"%char :: digits2 m ++ "-"%char :: digits2 d ++ " "%char
     :: digits2 hh ++ ":"%char :: digits2 mm ++ ":"%char :: digits2 ss).

(** A separator that cannot start with a digit. *)
Definition stops_at_digits (sep : matcher unit) : Prop :=
  forall v r, 0 <= v <= 9 -> sep (digit_char v :: r) = [].

(** What a two-digit piece of the expression finds in front of [tail]: the
    number, and at most readings that stop after the first digit. *)
Definition reads_two (re : matcher Z) (n : Z) : Prop :=
  forall tail, exists more,
    re (digits2 n ++ tail) = (n, tail) :: more /\
    Forall (fun '(_, r) => r = digit_char (n mod 10) :: tail) more.

(** ** Daily statistics *)

Definition stats_dict (daily_consumption daily_generation autarky self_consumption : float)
    : gmap string float :=
  list_to_map [("daily_consumption", daily_consumption);
               ("daily_generation", daily_generation);
               ("autarky", autarky);
               ("self_consumption", self_consumption)].

(** ** Traces *)

(** The events a run added to the trace. *)
Definition new_events (st st' : State) : list event :=
  drop (length (trace st)) (trace st').

(** Every event a computation records satisfies [P], whatever its outcome. *)
Definition emits {A} (m : M A) (P : event -> Prop) : Prop :=
  forall st r st', m st = (r, st') ->
    exists evs, trace st' = trace st ++ evs /\ Forall P evs.

(** The query, if the event is one, starts its range at [start]. *)
Definition query_from (start : Z) (ev : event) : Prop :=
  match ev with
  | EvQuery _ q => query_start q = start
  | _ => True
  end.

(** ** The start of the day *)

(** The window start of [calculate_daily_stats], as the specification puts
    it: a timestamp not after [t], on the local calendar day of [t], at
    local time 00:00:00. *)
Definition start_of_day_claim (w : World) (t : Z) : Prop :=
  exists start,
    start_of_day w (VInt t) = Ok start /\
    start <= t /\
    let '(y, m, d, _, _, _) := localtime (utcoffset w) t in
    localtime (utcoffset w) start = (y, m, d, 0, 0, 0).

(** A world whose collaborators have nothing to say: no sites, empty query
    results, writes that succeed, a clock stopped at [now], and the zone
    [tz]. *)
Definition quiet_world (tz : Z -> Z) (now : Z) : World :=
  {| config := {| ANKER_COUNTRY := None; ANKER_EMAIL := None; ANKER_PASSWORD := None;
                  INFLUX_URL := None; INFLUX_TOKEN := None; INFLUX_ORG := None;
                  INFLUX_BUCKET := None |};
     str_to_float := fun _ => None;
     float_to_timeval := fun _ => Raise ValueError;
     utcoffset := tz;
     clock := fun _ => (now, 0);
     update_sites := fun _ => Ok [];
     store_query := fun _ _ _ => Ok [];
     store_write := fun _ _ _ _ => Ok tt |}.

(** Cuba in March 2024: standard time (UTC-5) until 2024-03-10 05:00:00 UTC,
    when the clocks go from 00:00 to 01:00 (UTC-4). *)
Definition havana (u : Z) : Z := if u <? 1710046800 then -18000 else -14400.

(** Central European Time, with no change of offset. *)
Definition cet (u : Z) : Z := 3600.

(** ** Site readings *)

(** [v[k]] when [v] is there and is a dict that has [k]. *)
Definition at_key (v : option pyval) (k : string) : option pyval :=
  match v with
  | Some (VDict d) => d !! k
  | _ => None
  end.

(** The first entry of [site['solarbank_info']['solarbank_list']]. *)
Definition first_bank (site : gmap string pyval) : option pyval :=
  match at_key (site !! "solarbank_info") "solarbank_list" with
  | Some (VList (bank :: _)) => Some bank
  | _ => None
  end.

(** Where the upstream reading keeps the value of a power field of the
    record, if it has it. *)
Definition upstream (site : gmap string pyval) (name : string) : option pyval :=
  if String.eqb name "home_load_power" then site !! "home_load_power"
  else if String.eqb name "grid_to_home_power" then
    at_key (site !! "grid_info") "grid_to_home_power"
  else if String.eqb name "photovoltaic_to_grid_power" then
    at_key (site !! "grid_info") "photovoltaic_to_grid_power"
  else if String.eqb name "battery_percentage" then at_key (first_bank site) "battery_power"
  else if String.eqb name "battery_charge_power" then
    at_key (first_bank site) "charging_power"
  else at_key (site !! "solarbank_info") name.

(** Every power field the reading lacks is [0.0] in the record. *)
Definition absent_fields_zero (site data : gmap string pyval) : Prop :=
  forall name, name ∈ power_fields -> upstream site name = None ->
    data !! name = Some (VFloat fzero).

(** Normalization totality, as the specification puts it: a site with a
    solar-bank block always gets a record, with [0.0] for every power field
    the reading lacks. *)
Definition normalization_claim (w : World) (site : gmap string pyval) (st : State) : Prop :=
  has_solarbank_info site = true ->
  exists data st', site_reading w site st = (Ok data, st') /\ absent_fields_zero site data.

(** The keys of a record. *)
Definition record_keys : list string := "site_name" :: power_fields ++ ["timestamp"].

(** A record with the fixed key set, a float for every power metric and an
    int for the timestamp. *)
Definition complete_record (data : gmap string pyval) : Prop :=
  dom data = list_to_set record_keys /\
  (forall name, name ∈ power_fields -> exists x, data !! name = Some (VFloat x)) /\
  (exists z, data !! "timestamp" = Some (VInt z)).

(** An [anker_power] point, if the event writes one, has the twelve fields. *)
Definition carries_all_fields (ev : event) : Prop :=
  match ev with
  | EvWrite _ _ p =>
      point_name p = "anker_power" -> dom (point_fields p) = list_to_set power_fields
  | _ => True
  end.

(** [data] is the record of [site], read at some state. *)
Definition reading_of (w : World) (site data : gmap string pyval) : Prop :=
  exists st st', site_reading w site st = (Ok data, st').

(** A site with one bank and every optional field missing, one without a
    solar-bank block, and one whose block lacks [total_photovoltaic_power]. *)
Definition bank_example : pyval :=
  VDict (list_to_map [("charging_power", VStr "120"); ("battery_power", VInt 55)]).

Definition site_example : gmap string pyval :=
  list_to_map
    [("site_info", VDict (list_to_map [("site_name", VStr "home")]));
     ("solarbank_info",
      VDict (list_to_map [("solarbank_list", VList [bank_example]);
                          ("updated_time", VStr "2024-03-10 02:00:00");
                          ("total_photovoltaic_power", VFloat 310.5)]))].

Definition site_without_block : gmap string pyval :=
  list_to_map [("site_info", VDict (list_to_map [("site_name", VStr "shed")]))].

Definition site_without_total : gmap string pyval :=
  list_to_map
    [("site_info", VDict (list_to_map [("site_name", VStr "home")]));
     ("solarbank_info",
      VDict (list_to_map [("solarbank_list", VList []);
                          ("updated_time", VStr "2024-03-10 02:00:00")]))].

(** A world like [quiet_world] whose API returns [sites] and whose float
    parser knows the string ["120"]. *)
Definition world_with (sites : list (gmap string pyval)) : World :=
  {| config := config (quiet_world cet 1710050400);
     str_to_float := fun s => if String.eqb s "120" then Some 120%float else None;
     float_to_timeval := fun _ => Raise ValueError;
     utcoffset := cet;
     clock := fun _ => (1710050400, 0);
     update_sites := fun _ => Ok sites;
     store_query := fun _ _ _ => Ok [];
     store_write := fun _ _ _ _ => Ok tt |}.

(** ** Query results *)

(** The query gave no record at all. *)
Definition yields_no_records (tables : list FluxTable) : Prop :=
  Forall (fun table => records table = []) tables.

(** The missing data policy, as the specification puts it: a query without
    records counts as [0.0]. *)
Definition missing_data_claim (w : World) (tables : list FluxTable) : Prop :=
  yields_no_records tables -> extract_value w tables = Ok fzero.

(** A result made of one table that has no record. *)
Definition empty_table : list FluxTable := [{| records := [] |}].

(** A world like [quiet_world] whose store answers the consumption query
    with [empty_table] and the other queries with nothing. *)
Definition empty_table_world : World :=
  {| config := config (quiet_world cet 1710050400);
     str_to_float := fun _ => None;
     float_to_timeval := fun _ => Raise ValueError;
     utcoffset := cet;
     clock := fun _ => (1710050400, 0);
     update_sites := fun _ => Ok [];
     store_query := fun _ _ q =>
       if String.eqb (query_field q) "home_load_power" then Ok empty_table else Ok [];
     store_write := fun _ _ _ _ => Ok tt |}.

(** ** The collection loop *)

(** The events that are neither the fetch that opens an iteration nor a
    sleep. *)
Definition inner (ev : event) : Prop :=
  match ev with
  | EvUpdateSites | EvSleep _ => False
  | _ => True
  end.

Definition is_round_marker (ev : event) : bool :=
  match ev with
  | EvUpdateSites | EvSleep _ => true
  | _ => false
  end.

Definition is_sleep (ev : event) : bool :=
  match ev with
  | EvSleep _ => true
  | _ => false
  end.

Definition is_fetch (ev : event) : bool :=
  match ev with
  | EvUpdateSites => true
  | _ => false
  end.

(** The fetches and sleeps of a trace, in order. *)
Definition skeleton (evs : list event) : list event := List.filter is_round_marker evs.

(** [k] iterations with a sleep of [d] seconds between one and the next. *)
Fixpoint rounds (k : nat) (d : Z) : list event :=
  match k with
  | O => []
  | S k' => EvUpdateSites :: match k' with
                             | O => []
                             | S _ => EvSleep d :: rounds k' d
                             end
  end.

(** A world like [quiet_world] whose API fails at every call. *)
Definition failing_world : World :=
  {| config := config (quiet_world cet 1710050400);
     str_to_float := fun _ => None;
     float_to_timeval := fun _ => Raise ValueError;
     utcoffset := cet;
     clock := fun _ => (1710050400, 0);
     update_sites := fun _ => Raise (ApiError "unreachable");
     store_query := fun _ _ _ => Ok [];
     store_write := fun _ _ _ _ => Raise (ApiError "unreachable") |}.

(** * Properties *)

(** ** Floats *)

Lemma float_leb_zero_not_pos (x : float) :
  PrimFloat.leb x fzero = true -> PrimFloat.ltb fzero x = false.
Proof.
  rewrite FloatAxioms.leb_spec, FloatAxioms.ltb_spec.
  change (Prim2SF fzero) with (S754_zero false).
  destruct (Prim2SF x) as [s| s | |s m e]; try destruct s; cbn; congruence.
Qed.

Lemma float_pos_not_zero (x : float) :
  PrimFloat.ltb fzero x = true -> PrimFloat.eqb x fzero = false.
Proof.
  rewrite FloatAxioms.eqb_spec, FloatAxioms.ltb_spec.
  change (Prim2SF fzero) with (S754_zero false).
  destruct (Prim2SF x) as [s| s | |s m e]; try destruct s; cbn; congruence.
Qed.

Lemma percent_of_pos sc d :
  PrimFloat.ltb fzero d = true ->
  percent_of sc d = Ok (PrimFloat.mul (PrimFloat.div sc d) 100%float).
Proof.
  intros H. unfold percent_of, float_truediv.
  rewrite H, (float_pos_not_zero _ H). reflexivity.
Qed.

Lemma percent_of_not_pos sc d :
  PrimFloat.ltb fzero d = false -> percent_of sc d = Ok fzero.
Proof. intros H. unfold percent_of. now rewrite H. Qed.

Lemma percent_of_total sc d :
  percent_of sc d =
  Ok (if PrimFloat.ltb fzero d
      then PrimFloat.mul (PrimFloat.div sc d) 100%float else fzero).
Proof.
  destruct (PrimFloat.ltb fzero d) eqn:H.
  - now apply percent_of_pos.
  - now apply percent_of_not_pos.
Qed.

Lemma stats_dict_lookup dc dg a sc :
  stats_dict dc dg a sc !! "daily_consumption" = Some dc /\
  stats_dict dc dg a sc !! "daily_generation" = Some dg /\
  stats_dict dc dg a sc !! "autarky" = Some a /\
  stats_dict dc dg a sc !! "self_consumption" = Some sc.
Proof. repeat split; vm_compute; reflexivity. Qed.

Lemma daily_stats_of_eq dc dg gi :
  daily_stats_of dc dg gi =
  Ok (stats_dict dc dg
        (if PrimFloat.ltb fzero dc
         then PrimFloat.mul (PrimFloat.div (PrimFloat.sub dc gi) dc) 100%float
         else fzero)
        (if PrimFloat.ltb fzero dg
         then PrimFloat.mul (PrimFloat.div (PrimFloat.sub dc gi) dg) 100%float
         else fzero)).
Proof. unfold daily_stats_of. now rewrite !percent_of_total. Qed.

(** ** Calendar *)

Lemma all_from_spec p : forall f lo,
  all_from p f lo = true -> forall k, lo <= k < lo + Zpos p -> f k = true.
Proof.
  induction p as [q IH | q IH |]; intros f lo H k Hk; cbn in H.
  - apply andb_prop in H as [H H2]. apply andb_prop in H as [H0 H1].
    destruct (Z.eq_dec k lo) as [-> | Hne]; [assumption |].
    destruct (Z_lt_ge_dec k (lo + 1 + Zpos q)).
    + apply (IH f (lo + 1)); [assumption | lia].
    + apply (IH f (lo + 1 + Zpos q)); [assumption | lia].
  - apply andb_prop in H as [H1 H2].
    destruct (Z_lt_ge_dec k (lo + Zpos q)).
    + apply (IH f lo); [assumption | lia].
    + apply (IH f (lo + Zpos q)); [assumption | lia].
  - assert (k = lo) as -> by lia. assumption.
Qed.

Ltac split_andb :=
  repeat match goal with
         | H : (_ && _) = true |- _ => apply andb_prop in H as [? ?]
         | H : (_ <=? _) = true |- _ => apply Z.leb_le in H
         | H : (_ <? _) = true |- _ => apply Z.ltb_lt in H
         | H : (_ =? _) = true |- _ => apply Z.eqb_eq in H
         end.

Ltac tables :=
  cbv [table_at DAYS_IN_MONTH DAYS_BEFORE_MONTH nth Z.to_nat Pos.to_nat Pos.iter_op Nat.add] in *;
  cbn in *.

(** The months of the year, day by day. *)
Lemma month_day_checked leapyear : all_from 365 (month_day_check leapyear) 0 = true.
Proof. destruct leapyear; vm_compute; reflexivity. Qed.

Lemma is_leap_spec y :
  is_leap y = true <-> y mod 4 = 0 /\ (y mod 100 <> 0 \/ y mod 400 = 0).
Proof.
  unfold is_leap. rewrite andb_true_iff, orb_true_iff, negb_true_iff.
  rewrite !Z.eqb_eq, Z.eqb_neq. tauto.
Qed.

Lemma is_leap_eq y (b : bool) :
  (b = true <-> y mod 4 = 0 /\ (y mod 100 <> 0 \/ y mod 400 = 0)) -> is_leap y = b.
Proof.
  intros H. destruct b.
  - apply is_leap_spec. now apply H.
  - destruct (is_leap y) eqn:E; [| reflexivity].
    apply is_leap_spec in E. apply H in E. discriminate.
Qed.

Lemma ord2ymd_ok n : ord_ok n = true.
Proof.
  unfold ord_ok, ord2ymd. cbv zeta. unfold DI400Y, DI100Y, DI4Y.
  pose proof (Z.div_mod (n - 1) 146097 ltac:(lia)) as D1.
  pose proof (Z.mod_pos_bound (n - 1) 146097 ltac:(lia)) as B1.
  set (a := (n - 1) / 146097) in *. set (r400 := (n - 1) mod 146097) in *.
  pose proof (Z.div_mod r400 36524 ltac:(lia)) as D2.
  pose proof (Z.mod_pos_bound r400 36524 ltac:(lia)) as B2.
  set (b := r400 / 36524) in *. set (r100 := r400 mod 36524) in *.
  pose proof (Z.div_mod r100 1461 ltac:(lia)) as D3.
  pose proof (Z.mod_pos_bound r100 1461 ltac:(lia)) as B3.
  set (c := r100 / 1461) in *. set (r4 := r100 mod 1461) in *.
  pose proof (Z.div_mod r4 365 ltac:(lia)) as D4.
  pose proof (Z.mod_pos_bound r4 365 ltac:(lia)) as B4.
  set (e := r4 / 365) in *. set (r1 := r4 mod 365) in *.
  clearbody a r400 b r100 c r4 e r1.
  assert (Hb : 0 <= b <= 4) by lia.
  assert (Hc : 0 <= c <= 24) by lia.
  assert (He : 0 <= e <= 4) by lia.
  destruct ((e =? 4) || (b =? 4)) eqn:Edge.
  - assert (Hleap : is_leap (a * 400 + 1 + b * 100 + c * 4 + e - 1) = true).
    { apply is_leap_spec. apply orb_true_iff in Edge. rewrite !Z.eqb_eq in Edge.
      Z.div_mod_to_equations. lia. }
    unfold month_day_ok, ymd2ord, days_in_month, days_before_month. rewrite Hleap.
    tables. apply Z.eqb_eq. unfold days_before_year. cbv zeta.
    apply orb_true_iff in Edge. rewrite !Z.eqb_eq in Edge.
    Z.div_mod_to_equations. lia.
  - apply orb_false_iff in Edge as [E4 Eb]. apply Z.eqb_neq in E4, Eb.
    set (leapyear := (e =? 3) && (negb (c =? 24) || (b =? 3))).
    set (y := a * 400 + 1 + b * 100 + c * 4 + e).
    assert (Hleap : is_leap y = leapyear).
    { apply is_leap_eq. unfold leapyear, y.
      rewrite andb_true_iff, orb_true_iff, negb_true_iff, !Z.eqb_eq, Z.eqb_neq.
      Z.div_mod_to_equations. lia. }
    assert (Hy : days_before_year y = n - 1 - r1).
    { unfold days_before_year, y. cbv zeta. Z.div_mod_to_equations. lia. }
    pose proof (all_from_spec _ _ _ (month_day_checked leapyear) r1 ltac:(lia)) as Hmd.
    unfold month_day_check, month_day in Hmd. cbv zeta in Hmd.
    fold leapyear. fold y.
    match type of Hmd with
    | context [if ?cond then _ else _] =>
        match cond with
        | (r1 <? _) => destruct cond
        end
    end;
      unfold month_day_ok, ymd2ord, days_in_month, days_before_month;
      rewrite Hleap, Hy;
      apply andb_prop in Hmd as [Hmd Hsum]; rewrite Hmd; cbn [andb];
      apply Z.eqb_eq in Hsum; apply Z.eqb_eq; lia.
Qed.

Lemma days_before_year_next y :
  days_before_year (y + 1) = days_before_year y + 365 + (if is_leap y then 1 else 0).
Proof.
  destruct (is_leap y) eqn:E.
  - apply is_leap_spec in E. unfold days_before_year. cbv zeta.
    Z.div_mod_to_equations. lia.
  - assert (H : ~ (y mod 4 = 0 /\ (y mod 100 <> 0 \/ y mod 400 = 0))).
    { intros H. apply is_leap_spec in H. congruence. }
    unfold days_before_year. cbv zeta. Z.div_mod_to_equations. lia.
Qed.

Lemma days_before_year_later y y' :
  y + 2 <= y' -> days_before_year y + 366 < days_before_year y'.
Proof. intros H. unfold days_before_year. cbv zeta. Z.div_mod_to_equations. lia. Qed.

Lemma day_of_year_span y m d :
  month_day_ok y m d = true ->
  1 <= days_before_month y m + d <= 365 + (if is_leap y then 1 else 0).
Proof.
  unfold month_day_ok, days_before_month, days_in_month. intros H.
  assert (Hm : 1 <= m <= 12) by (split_andb; lia).
  assert (Hm' : m = 1 \/ m = 2 \/ m = 3 \/ m = 4 \/ m = 5 \/ m = 6 \/ m = 7 \/ m = 8
               \/ m = 9 \/ m = 10 \/ m = 11 \/ m = 12) by lia.
  destruct (is_leap y);
    repeat (destruct Hm' as [-> | Hm']; [tables; split_andb; lia |]);
    subst m; tables; split_andb; lia.
Qed.

Lemma month_cases m : 1 <= m <= 12 ->
  m = 1 \/ m = 2 \/ m = 3 \/ m = 4 \/ m = 5 \/ m = 6 \/ m = 7 \/ m = 8
  \/ m = 9 \/ m = 10 \/ m = 11 \/ m = 12.
Proof. lia. Qed.

Lemma days_before_month_next y m :
  1 <= m <= 11 ->
  days_before_month y (m + 1) = days_before_month y m + days_in_month y m.
Proof.
  intros Hm. unfold days_before_month, days_in_month.
  pose proof (month_cases m ltac:(lia)) as Hm'.
  destruct (is_leap y);
    repeat (destruct Hm' as [-> | Hm']; [reflexivity |]); lia.
Qed.

Lemma days_in_month_pos y m : 1 <= m <= 12 -> 28 <= days_in_month y m.
Proof.
  intros Hm. unfold days_in_month.
  pose proof (month_cases m Hm) as Hm'.
  destruct (is_leap y);
    repeat (destruct Hm' as [-> | Hm']; [tables; lia |]); subst m; tables; lia.
Qed.

Lemma days_before_month_later y m m' :
  1 <= m -> m < m' <= 12 ->
  days_before_month y m + days_in_month y m <= days_before_month y m'.
Proof.
  intros Hm Hm'.
  replace m' with (m + 1 + Z.of_nat (Z.to_nat (m' - m - 1))) by lia.
  assert (Hk : m + 1 + Z.of_nat (Z.to_nat (m' - m - 1)) <= 12) by lia.
  induction (Z.to_nat (m' - m - 1)) as [| k IH].
  - rewrite Z.add_0_r, days_before_month_next by lia. lia.
  - rewrite Nat2Z.inj_succ in *.
    replace (m + 1 + Z.succ (Z.of_nat k)) with (m + 1 + Z.of_nat k + 1) by lia.
    rewrite days_before_month_next by lia.
    pose proof (days_in_month_pos y (m + 1 + Z.of_nat k) ltac:(lia)).
    specialize (IH ltac:(lia)). lia.
Qed.

Lemma day_of_year_inj y m d m' d' :
  month_day_ok y m d = true -> month_day_ok y m' d' = true ->
  days_before_month y m + d = days_before_month y m' + d' -> m = m' /\ d = d'.
Proof.
  unfold month_day_ok. intros H H' E. split_andb.
  destruct (Z_lt_ge_dec m m') as [L | G].
  - pose proof (days_before_month_later y m m' ltac:(lia) ltac:(lia)). lia.
  - destruct (Z.eq_dec m m') as [-> | Hne]; [lia |].
    pose proof (days_before_month_later y m' m ltac:(lia) ltac:(lia)). lia.
Qed.

Lemma ymd2ord_inj y m d y' m' d' :
  month_day_ok y m d = true -> month_day_ok y' m' d' = true ->
  ymd2ord y m d = ymd2ord y' m' d' -> y = y' /\ m = m' /\ d = d'.
Proof.
  intros H H' E. unfold ymd2ord in E.
  pose proof (day_of_year_span _ _ _ H) as S.
  pose proof (day_of_year_span _ _ _ H') as S'.
  pose proof (days_before_year_next y) as N.
  pose proof (days_before_year_next y') as N'.
  assert (Hy : y = y').
  { destruct (Z_lt_ge_dec y y') as [L | G].
    - destruct (Z.eq_dec y' (y + 1)) as [-> | Hne]; [lia |].
      pose proof (days_before_year_later y y' ltac:(lia)). destruct (is_leap y); lia.
    - destruct (Z.eq_dec y y') as [-> | Hne]; [reflexivity |].
      destruct (Z.eq_dec y (y' + 1)) as [-> | Hne']; [lia |].
      pose proof (days_before_year_later y' y ltac:(lia)). destruct (is_leap y'); lia. }
  subst y'. split; [reflexivity |].
  apply (day_of_year_inj y); [assumption | assumption | lia].
Qed.

Lemma ord2ymd_inv n y m d :
  ord2ymd n = (y, m, d) -> month_day_ok y m d = true /\ ymd2ord y m d = n.
Proof.
  intros E. pose proof (ord2ymd_ok n) as H. unfold ord_ok in H. rewrite E in H.
  apply andb_prop in H as [H1 H2]. apply Z.eqb_eq in H2. auto.
Qed.

Lemma ord2ymd_ymd2ord Y m d :
  month_day_ok Y m d = true -> ord2ymd (ymd2ord Y m d) = (Y, m, d).
Proof.
  intros Hok. remember (ymd2ord Y m d) as n eqn:En.
  destruct (ord2ymd n) as [[y' m'] d'] eqn:E.
  apply ord2ymd_inv in E as [H1 H2]. rewrite En in H2.
  destruct (ymd2ord_inj _ _ _ _ _ _ H1 Hok H2) as (-> & -> & ->). reflexivity.
Qed.

(** ** Local time under a steady zone *)

Lemma span_of_year y m d :
  month_day_ok y m d = true ->
  days_before_year y < ymd2ord y m d <= days_before_year y + 366.
Proof.
  unfold month_day_ok, ymd2ord, days_before_month, days_in_month. intros H.
  assert (Hm : 1 <= m <= 12) by (split_andb; lia).
  assert (Hm' : m = 1 \/ m = 2 \/ m = 3 \/ m = 4 \/ m = 5 \/ m = 6 \/ m = 7 \/ m = 8
               \/ m = 9 \/ m = 10 \/ m = 11 \/ m = 12) by lia.
  destruct (is_leap y);
    repeat (destruct Hm' as [-> | Hm']; [tables; split_andb; lia |]);
    subst; tables; split_andb; lia.
Qed.

Lemma year_in_range n y m d :
  ord2ymd n = (y, m, d) -> 1 <= n <= 3652059 -> MINYEAR <= y <= MAXYEAR.
Proof.
  intros E Hn. pose proof (ord2ymd_ok n) as Hok. unfold ord_ok in Hok. rewrite E in Hok.
  apply andb_prop in Hok as [H1 H2]. apply Z.eqb_eq in H2.
  pose proof (span_of_year _ _ _ H1) as Hs. rewrite H2 in Hs.
  unfold days_before_year, MINYEAR, MAXYEAR in *. cbv zeta in Hs.
  Z.div_mod_to_equations. lia.
Qed.

Lemma hms_sum r : 0 <= r < 86400 ->
  r / 3600 * 3600 + r mod 3600 / 60 * 60 + r mod 60 = r.
Proof. intros. Z.div_mod_to_equations. lia. Qed.

Lemma hms_valid r us : 0 <= r < 86400 -> 0 <= us <= 999999 ->
  valid_time (r / 3600) (r mod 3600 / 60) (r mod 60) us = true.
Proof.
  intros. unfold valid_time. repeat (apply andb_true_intro; split); apply Z.leb_le;
    Z.div_mod_to_equations; lia.
Qed.

Lemma civil_valid s us :
  MIN_SECONDS <= s <= MAX_SECONDS -> 0 <= us <= 999999 ->
  valid_date (year (civil s us)) (month (civil s us)) (day (civil s us)) = true /\
  valid_time (hour (civil s us)) (minute (civil s us)) (second (civil s us)) us = true /\
  seconds_since_epoch (civil s us) = s.
Proof.
  intros Hs Hus. unfold civil.
  assert (Hord : 1 <= s / 86400 + EPOCH_ORD <= 3652059).
  { unfold MIN_SECONDS, MAX_SECONDS, EPOCH_ORD in *. Z.div_mod_to_equations. lia. }
  pose proof (ord2ymd_ok (s / 86400 + EPOCH_ORD)) as Hok. unfold ord_ok in Hok.
  destruct (ord2ymd (s / 86400 + EPOCH_ORD)) as [[y m] d] eqn:E.
  pose proof (year_in_range _ _ _ _ E Hord) as Hy.
  apply andb_prop in Hok as [H1 H2]. apply Z.eqb_eq in H2.
  pose proof (Z.mod_pos_bound s 86400 ltac:(lia)) as Hr.
  cbn [year month day hour minute second microsecond].
  split; [| split].
  - unfold valid_date. unfold month_day_ok in H1. split_andb.
    repeat (apply andb_true_intro; split); apply Z.leb_le; lia.
  - now apply hms_valid.
  - unfold seconds_since_epoch. cbn [year month day hour minute second].
    rewrite H2. pose proof (hms_sum _ Hr). pose proof (Z.div_mod s 86400). lia.
Qed.

Lemma mk_datetime_civil tz u us :
  MIN_SECONDS <= u + tz u <= MAX_SECONDS -> 0 <= us <= 999999 ->
  (let '(y, m, d, hh, mm, ss) := localtime tz u in mk_datetime y m d hh mm ss us)
  = Ok (civil (u + tz u) us).
Proof.
  intros Hs Hus. destruct (civil_valid _ _ Hs Hus) as (Hd & Ht & _).
  unfold localtime, civil in *.
  destruct (ord2ymd ((u + tz u) / 86400 + EPOCH_ORD)) as [[y m] d].
  cbn [year month day hour minute second microsecond] in *.
  unfold mk_datetime. now rewrite Hd, Ht.
Qed.

Lemma local_steady tz u :
  MIN_SECONDS <= u + tz u <= MAX_SECONDS -> local tz u = Ok (u + tz u).
Proof.
  intros Hs. unfold local.
  pose proof (mk_datetime_civil tz u 0 Hs ltac:(lia)) as H.
  destruct (localtime tz u) as [[[[[y m] d] hh] mm] ss].
  rewrite H. cbn. f_equal. now destruct (civil_valid _ 0 Hs ltac:(lia)) as (_ & _ & ->).
Qed.

Lemma fromtimestamp_steady tz off t us :
  tz t = off -> tz (t - 86400) = off ->
  MIN_SECONDS + 86400 <= t + off <= MAX_SECONDS -> 0 <= us <= 999999 ->
  fromtimestamp tz t us = Ok (civil (t + off) us).
Proof.
  intros Ht Hp Hs Hus. unfold fromtimestamp, max_fold_seconds.
  assert (H1 : MIN_SECONDS <= t + tz t <= MAX_SECONDS) by lia.
  assert (H2 : MIN_SECONDS <= t - 24 * 3600 + tz (t - 24 * 3600) <= MAX_SECONDS).
  { change (24 * 3600) with 86400. lia. }
  pose proof (mk_datetime_civil tz t us H1 Hus) as E1.
  pose proof (mk_datetime_civil tz (t - 24 * 3600) us H2 Hus) as E2.
  destruct (civil_valid _ _ H1 Hus) as (_ & Hv & Hsec).
  destruct (civil_valid _ _ H2 Hus) as (_ & _ & Hsec2).
  destruct (localtime tz t) as [[[[[y m] d] hh] mm] ss] eqn:El.
  assert (Hss : Z.min ss 59 = ss).
  { unfold localtime in El. destruct (ord2ymd _) as [[? ?] ?]. inversion El; subst.
    pose proof (Z.mod_pos_bound ((t + tz t) mod 86400) 60). lia. }
  rewrite Hss, E1. cbn [mbind result_bind].
  destruct (localtime tz (t - 24 * 3600)) as [[[[[y' m'] d'] hh'] mm'] ss'].
  rewrite E2. cbn [mbind result_bind]. rewrite Hsec, Hsec2.
  change (24 * 3600) with 86400 in *.
  replace (t + tz t - (t - 86400 + tz (t - 86400)) - 86400 <? 0) with false
    by (symmetry; apply Z.ltb_ge; lia).
  now rewrite Ht.
Qed.

Lemma civil_midnight s us :
  MIN_SECONDS <= s <= MAX_SECONDS -> 0 <= us <= 999999 ->
  replace_hms (civil s us) 0 0 0 = Ok (civil (s - s mod 86400) us).
Proof.
  intros Hs Hus. destruct (civil_valid _ _ Hs Hus) as (Hd & _ & _).
  unfold replace_hms. rewrite Hd.
  assert (Hq : (s - s mod 86400) / 86400 = s / 86400) by (Z.div_mod_to_equations; lia).
  assert (Hr : (s - s mod 86400) mod 86400 = 0) by (Z.div_mod_to_equations; lia).
  unfold civil. rewrite Hq, Hr.
  destruct (ord2ymd (s / 86400 + EPOCH_ORD)) as [[y m] d].
  cbn [year month day hour minute second microsecond fold].
  replace (valid_time 0 0 0 us) with true; [reflexivity |].
  symmetry. unfold valid_time.
  repeat (apply andb_true_intro; split); apply Z.leb_le; lia.
Qed.

Lemma mktime_steady tz off dt t :
  seconds_since_epoch dt = t ->
  fold dt = 0 ->
  tz t = off -> tz (t - off) = off -> tz (t - off - 86400) = off ->
  MIN_SECONDS + 86400 <= t <= MAX_SECONDS ->
  MIN_SECONDS <= t + off <= MAX_SECONDS ->
  mktime tz dt = Ok (t - off).
Proof.
  intros Ht Hf H1 H2 H3 Hr Hr'. unfold mktime. rewrite Ht.
  assert (L1 : local tz t = Ok (t + off)) by (rewrite local_steady; [now rewrite H1 | lia]).
  assert (L2 : local tz (t - off) = Ok t)
    by (rewrite local_steady; [f_equal; lia | lia]).
  assert (L3 : local tz (t - off - 86400) = Ok (t - 86400))
    by (rewrite local_steady; [f_equal; lia | lia]).
  rewrite L1. cbn [mbind result_bind].
  replace (t - (t + off - t)) with (t - off) by lia.
  rewrite L2. cbn [mbind result_bind].
  rewrite Z.eqb_refl, Hf.
  replace (t - off + (if 0 =? 0 then - max_fold_seconds else max_fold_seconds))
    with (t - off - 86400) by (unfold max_fold_seconds; cbn; lia).
  rewrite L3. cbn [mbind result_bind].
  replace (t + off - t =? t - 86400 - (t - off - 86400)) with true
    by (symmetry; apply Z.eqb_eq; lia).
  reflexivity.
Qed.

Lemma seconds_of_civil s us :
  MIN_SECONDS <= s <= MAX_SECONDS -> 0 <= us <= 999999 ->
  seconds_since_epoch (civil s us) = s.
Proof. intros Hs Hus. now destruct (civil_valid _ _ Hs Hus) as (_ & _ & ->). Qed.

Lemma fold_civil s us : fold (civil s us) = 0.
Proof. unfold civil. now destruct (ord2ymd _) as [[? ?] ?]. Qed.

Lemma microsecond_civil s us : microsecond (civil s us) = us.
Proof. unfold civil. now destruct (ord2ymd _) as [[? ?] ?]. Qed.

(** The window start the script computes when the zone is steady around
    [t]: [t] less the seconds since local midnight. *)
Lemma start_of_day_steady w off t :
  steady (utcoffset w) off (t - 3 * 86400) (t + 86400) ->
  -86400 <= off <= 86400 ->
  MIN_SECONDS + 3 * 86400 <= t <= MAX_SECONDS - 2 * 86400 ->
  start_of_day w (VInt t) = Ok (t - (t + off) mod 86400).
Proof.
  intros Hz Hoff Ht. unfold start_of_day, py_fromtimestamp.
  pose proof (Z.mod_pos_bound (t + off) 86400 ltac:(lia)) as Hr.
  rewrite (fromtimestamp_steady _ off) by (try apply Hz; lia).
  cbn [mbind result_bind]. rewrite civil_midnight by lia.
  cbn [mbind result_bind]. unfold int_timestamp.
  set (T := t + off - (t + off) mod 86400).
  assert (HT : t + off - 86400 < T <= t + off) by (unfold T; lia).
  rewrite (mktime_steady _ off _ T);
    [| apply seconds_of_civil; lia | apply fold_civil
     | apply Hz; lia | apply Hz; lia | apply Hz; lia | lia | lia].
  cbn [mbind result_bind]. rewrite microsecond_civil. f_equal.
  rewrite Z.add_0_r, Z.quot_mul by lia. unfold T. lia.
Qed.

(** ** What a computation records *)

Lemma emits_weaken {A} (m : M A) (P Q : event -> Prop) :
  (forall ev, P ev -> Q ev) -> emits m P -> emits m Q.
Proof.
  intros HPQ Hm st r st' E. destruct (Hm _ _ _ E) as (evs & -> & HF).
  exists evs. split; [reflexivity |]. eapply Forall_impl; eauto.
Qed.

Lemma emits_ret {A} (a : A) P : emits (mret a) P.
Proof. intros st r st' E. inversion E; subst. exists []. now rewrite app_nil_r. Qed.

Lemma emits_lift {A} (x : result A) P : emits (lift x) P.
Proof. intros st r st' E. inversion E; subst. exists []. now rewrite app_nil_r. Qed.

Lemma emits_call {A} ev (answer : nat -> result A) (P : event -> Prop) :
  P ev -> emits (call ev answer) P.
Proof.
  intros HP st r st' E. inversion E; subst. exists [ev]. cbn. split; [reflexivity |].
  now constructor.
Qed.

Lemma emits_bind {A B} (m : M A) (k : A -> M B) P :
  emits m P -> (forall a, emits (k a) P) -> emits (m ≫= k) P.
Proof.
  intros Hm Hk st r st' E. unfold mbind, M_bind in E.
  destruct (m st) as [[a | e] st1] eqn:E1.
  - destruct (Hm _ _ _ E1) as (evs1 & T1 & F1).
    destruct (Hk a _ _ _ E) as (evs2 & T2 & F2).
    exists (evs1 ++ evs2). rewrite T2, T1, app_assoc. split; [reflexivity |].
    now apply Forall_app.
  - inversion E; subst. eauto.
Qed.

Lemma emits_try_except {A} (body : M A) handler P :
  emits body P -> (forall e h, handler e = Some h -> emits h P) ->
  emits (try_except body handler) P.
Proof.
  intros Hb Hh st r st' E. unfold try_except in E.
  destruct (body st) as [[a | e] st1] eqn:E1.
  - inversion E; subst. eauto.
  - destruct (Hb _ _ _ E1) as (evs1 & T1 & F1).
    destruct (handler e) as [h |] eqn:Eh.
    + destruct (Hh _ _ Eh _ _ _ E) as (evs2 & T2 & F2).
      exists (evs1 ++ evs2). rewrite T2, T1, app_assoc. split; [reflexivity |].
      now apply Forall_app.
    + inversion E; subst. eauto.
Qed.

Lemma emits_try_finally {A B} (body : M A) (final : M B) P :
  emits body P -> emits final P -> emits (try_finally body final) P.
Proof.
  intros Hb Hf st r st' E. unfold try_finally in E.
  destruct (body st) as [[a | e] st1] eqn:E1;
    destruct (Hb _ _ _ E1) as (evs1 & T1 & F1).
  - destruct (Hf _ _ _ E) as (evs2 & T2 & F2).
    exists (evs1 ++ evs2). rewrite T2, T1, app_assoc. split; [reflexivity |].
    now apply Forall_app.
  - destruct (final st1) as [[b | e'] st2] eqn:E2;
      destruct (Hf _ _ _ E2) as (evs2 & T2 & F2); inversion E; subst;
      exists (evs1 ++ evs2); rewrite T2, T1, app_assoc; (split; [reflexivity |]);
      now apply Forall_app.
Qed.

Lemma emits_new_events {A} (m : M A) P st r st' :
  emits m P -> m st = (r, st') -> Forall P (new_events st st').
Proof.
  intros Hm E. destruct (Hm _ _ _ E) as (evs & T & F).
  unfold new_events. rewrite T, drop_app_length. exact F.
Qed.

Ltac emits_step :=
  first
    [ apply emits_ret | apply emits_lift
    | apply emits_call; cbn; try reflexivity; try exact I
    | apply emits_bind; [| intros ?]
    | apply emits_try_except; [| intros ? ? [= <-]]
    | apply emits_try_finally ].

Lemma bind_lift_ok {A B} (a : A) (k : A -> M B) : (lift (Ok a) ≫= k) = k a.
Proof. reflexivity. Qed.

Lemma bind_lift_raise {A B} (e : exn) (k : A -> M B) :
  (lift (Raise e) ≫= k) = lift (Raise e).
Proof. reflexivity. Qed.

(** The queries of [calculate_daily_stats] all start where [start_of_day]
    says. *)
Lemma calculate_daily_stats_queries w site_name current_timestamp start :
  start_of_day w current_timestamp = Ok start ->
  emits (calculate_daily_stats w site_name current_timestamp) (query_from start).
Proof.
  intros Hs. unfold calculate_daily_stats. rewrite Hs, bind_lift_ok.
  unfold query, print. repeat emits_step.
Qed.

Lemma calculate_daily_stats_returns w site_name current_timestamp start st :
  start_of_day w current_timestamp = Ok start ->
  exists r st', calculate_daily_stats w site_name current_timestamp st = (Ok r, st').
Proof.
  intros Hs. unfold calculate_daily_stats. rewrite Hs, bind_lift_ok.
  unfold try_except.
  match goal with |- context [match ?b st with _ => _ end] => destruct (b st) as [[a | e] st1] end.
  - eauto.
  - cbn. eauto.
Qed.

Lemma localtime_steady_midnight tz off t :
  tz t = off -> tz (t - (t + off) mod 86400) = off ->
  let '(y, m, d, _, _, _) := localtime tz t in
  localtime tz (t - (t + off) mod 86400) = (y, m, d, 0, 0, 0).
Proof.
  intros H1 H2. unfold localtime. rewrite H1, H2.
  replace (t - (t + off) mod 86400 + off) with (t + off - (t + off) mod 86400) by lia.
  assert (Hq : (t + off - (t + off) mod 86400) / 86400 = (t + off) / 86400)
    by (Z.div_mod_to_equations; lia).
  assert (Hr : (t + off - (t + off) mod 86400) mod 86400 = 0)
    by (Z.div_mod_to_equations; lia).
  rewrite Hq, Hr. now destruct (ord2ymd _) as [[y m] d].
Qed.




(** ** Parsing the strict format *)

Lemma Z_upto (P : Z -> Prop) (hi : nat) :
  (forall k : nat, (k <= hi)%nat -> P (Z.of_nat k)) ->
  forall n, 0 <= n <= Z.of_nat hi -> P n.
Proof.
  intros H n Hn. rewrite <- (Z2Nat.id n) by lia. apply H. lia.
Qed.

Lemma m_digit_char lo hi v r :
  0 <= v <= 9 ->
  m_digit lo hi (digit_char v :: r) = if (lo <=? v) && (v <=? hi) then [(v, r)] else [].
Proof.
  intros Hv. unfold m_digit, digit_char, code.
  rewrite nat_ascii_embedding by lia.
  replace (Z.of_nat (Z.to_nat (48 + v)) - 48) with v by lia. reflexivity.
Qed.

Lemma m_char_stops c : (forall v, 0 <= v <= 9 -> digit_char v <> c) ->
  stops_at_digits (m_char c).
Proof.
  intros Hc v r Hv. unfold m_char.
  destruct (Ascii.eqb_spec (digit_char v) c) as [E | E]; [| reflexivity].
  now apply Hc in E.
Qed.

Lemma digit_char_cases v : 0 <= v <= 9 ->
  In (digit_char v) ["0"; "1"; "2"; "3"; "4"; "5"; "6"; "7"; "8"; "9"]%char.
Proof.
  revert v. apply (Z_upto _ 9). intros k Hk.
  do 10 (destruct k as [| k]; [cbn; tauto |]). lia.
Qed.

Lemma dash_stops : stops_at_digits (m_char "-").
Proof.
  apply m_char_stops. intros v Hv E. pose proof (digit_char_cases v Hv) as H.
  rewrite E in H. cbn in H. intuition discriminate.
Qed.

Lemma colon_stops : stops_at_digits (m_char ":").
Proof.
  apply m_char_stops. intros v Hv E. pose proof (digit_char_cases v Hv) as H.
  rewrite E in H. cbn in H. intuition discriminate.
Qed.

Lemma is_space_digit v : 0 <= v <= 9 -> is_space (digit_char v) = false.
Proof.
  intros Hv. pose proof (digit_char_cases v Hv) as H. cbn in H.
  repeat (destruct H as [<- | H]; [vm_compute; reflexivity |]). destruct H.
Qed.

Lemma spaces_stop : stops_at_digits m_spaces1.
Proof. intros v r Hv. unfold m_spaces1. now rewrite is_space_digit. Qed.

Lemma m_spaces1_one v r : 0 <= v <= 9 ->
  m_spaces1 (" "%char :: digit_char v :: r) = [(tt, digit_char v :: r)].
Proof.
  intros Hv. unfold m_spaces1. change (is_space " ") with true. cbn [m_spaces0].
  now rewrite is_space_digit.
Qed.

(** Two digits and the separator after them. *)
Lemma followed_by_two (re : matcher Z) (sep : matcher unit) n tail :
  stops_at_digits sep ->
  0 <= n <= 99 ->
  (exists more, re (digits2 n ++ tail) = (n, tail) :: more /\
     Forall (fun '(_, r) => r = digit_char (n mod 10) :: tail) more) ->
  followed_by re sep (digits2 n ++ tail) = ('(_, s) ← sep tail; [(n, s)]).
Proof.
  intros Hsep Hn (more & E & Hmore). unfold followed_by. rewrite E.
  cbn [mbind list_bind list.list_bind].
  assert (Hz : ((more ≫= (fun '(x, s) => sep s ≫= (fun '(_, s0) => [(x, s0)])))
                : list (Z * list ascii)) = []).
  { clear E. induction more as [| [x r] more IH]; [reflexivity |].
    inversion Hmore as [| ? ? Hr Hrest]; subst. cbn. rewrite IH by assumption.
    rewrite Hsep by (Z.div_mod_to_equations; lia). reflexivity. }
  cbn. rewrite Hz, app_nil_r. reflexivity.
Qed.


Tactic Notation "enumerate" constr(hi) integer(cases) :=
  match goal with
  | |- forall n, _ -> ?Q => apply (Z_upto (fun n => Q) hi)
  end; intros k Hk;
  do cases (destruct k as [| k];
             [first [ solve [intros; lia]
                    | unfold reads_two; intros; eexists;
                      split; [lazy; reflexivity | lazy; repeat constructor] ] |]);
  lia.

Lemma re_m_reads n : 0 <= n <= 12 -> 1 <= n -> reads_two re_m n.
Proof. revert n. enumerate 12%nat 13. Qed.

Lemma re_d_reads n : 0 <= n <= 31 -> 1 <= n -> reads_two re_d n.
Proof. revert n. enumerate 31%nat 32. Qed.

Lemma re_H_reads n : 0 <= n <= 23 -> reads_two re_H n.
Proof. revert n. enumerate 23%nat 24. Qed.

Lemma re_M_reads n : 0 <= n <= 59 -> reads_two re_M n.
Proof. revert n. enumerate 59%nat 60. Qed.

Lemma re_S_reads n : 0 <= n <= 59 -> reads_two re_S n.
Proof. revert n. enumerate 59%nat 60. Qed.

Lemma re_Y_reads Y tail : 0 <= Y <= 9999 -> re_Y (digits4 Y ++ tail) = [(Y, tail)].
Proof.
  intros HY. unfold re_Y, digits4. cbn [app].
  rewrite !m_digit_char by (Z.div_mod_to_equations; lia).
  replace ((0 <=? Y / 1000) && (Y / 1000 <=? 9)) with true
    by (symmetry; apply andb_true_intro; split; apply Z.leb_le; Z.div_mod_to_equations; lia).
  cbn [mbind list_bind list.list_bind app].
  rewrite !m_digit_char by (Z.div_mod_to_equations; lia).
  replace ((0 <=? Y / 100 mod 10) && (Y / 100 mod 10 <=? 9)) with true
    by (symmetry; apply andb_true_intro; split; apply Z.leb_le; Z.div_mod_to_equations; lia).
  cbn [mbind list_bind list.list_bind app].
  rewrite !m_digit_char by (Z.div_mod_to_equations; lia).
  replace ((0 <=? Y / 10 mod 10) && (Y / 10 mod 10 <=? 9)) with true
    by (symmetry; apply andb_true_intro; split; apply Z.leb_le; Z.div_mod_to_equations; lia).
  cbn [mbind list_bind list.list_bind app].
  rewrite !m_digit_char by (Z.div_mod_to_equations; lia).
  replace ((0 <=? Y mod 10) && (Y mod 10 <=? 9)) with true
    by (symmetry; apply andb_true_intro; split; apply Z.leb_le; Z.div_mod_to_equations; lia).
  cbn [mbind list_bind list.list_bind app].
  do 2 f_equal. Z.div_mod_to_equations. lia.
Qed.

Lemma m_char_here c r : m_char c (c :: r) = [(tt, r)].
Proof. unfold m_char. now rewrite Ascii.eqb_refl. Qed.

Lemma valid_fields Y m d hh mm ss :
  valid_date Y m d = true -> valid_time hh mm ss 0 = true ->
  1 <= Y <= 9999 /\ 1 <= m <= 12 /\ 1 <= d <= 31 /\
  0 <= hh <= 23 /\ 0 <= mm <= 59 /\ 0 <= ss <= 59.
Proof.
  unfold valid_date, valid_time, MINYEAR, MAXYEAR, days_in_month. intros Hd Ht.
  split_andb.
  assert (Hm' : m = 1 \/ m = 2 \/ m = 3 \/ m = 4 \/ m = 5 \/ m = 6 \/ m = 7 \/ m = 8
               \/ m = 9 \/ m = 10 \/ m = 11 \/ m = 12) by lia.
  destruct (is_leap Y);
    repeat (destruct Hm' as [-> | Hm']; [tables; lia |]); subst; tables; lia.
Qed.

Lemma list_bind_one {A B} (x : A) (f : A -> list B) : ([x] ≫= f) = f x.
Proof. cbn. apply app_nil_r. Qed.

Lemma followed_by_char (re : matcher Z) c n tail :
  stops_at_digits (m_char c) -> 0 <= n <= 99 -> reads_two re n ->
  followed_by re (m_char c) (digits2 n ++ c :: tail) = [(n, tail)].
Proof.
  intros Hs Hn Hr. rewrite (followed_by_two re (m_char c) n) by auto.
  rewrite m_char_here. now rewrite list_bind_one.
Qed.

(** Every date and time, written [YYYY-MM-DD HH:MM:SS], is parsed to itself. *)
Lemma strptime_strict Y m d hh mm ss :
  valid_date Y m d = true -> valid_time hh mm ss 0 = true ->
  strptime (VStr (strict_format Y m d hh mm ss))
  = Ok {| year := Y; month := m; day := d; hour := hh; minute := mm; second := ss;
          microsecond := 0; fold := 0 |}.
Proof.
  intros Hd Ht. destruct (valid_fields _ _ _ _ _ _ Hd Ht) as (HY & Hm & Hdd & Hh & HM & HS).
  unfold strptime, strict_format. rewrite list_ascii_of_string_of_list_ascii.
  unfold format_regex.
  assert (EY : forall tail, followed_by re_Y (m_char "-") (digits4 Y ++ "-"%char :: tail)
                            = [(Y, tail)]).
  { intros tail. unfold followed_by. rewrite re_Y_reads by lia. rewrite list_bind_one.
    rewrite m_char_here. now rewrite list_bind_one. }
  rewrite EY, list_bind_one.
  rewrite (followed_by_char re_m) by
    (first [apply dash_stops | lia | apply re_m_reads; lia]).
  rewrite list_bind_one.
  rewrite (followed_by_two re_d m_spaces1 d) by
    (first [apply spaces_stop | lia | apply re_d_reads; lia]).
  unfold digits2 at 1. cbn [app]. rewrite m_spaces1_one by (Z.div_mod_to_equations; lia).
  rewrite !list_bind_one.
  change (digit_char (hh / 10) :: digit_char (hh mod 10) :: ":"%char :: digits2 mm ++ ":"%char :: digits2 ss)
    with (digits2 hh ++ ":"%char :: digits2 mm ++ ":"%char :: digits2 ss).
  rewrite (followed_by_char re_H) by
    (first [apply colon_stops | lia | apply re_H_reads; lia]).
  rewrite list_bind_one.
  rewrite (followed_by_char re_M) by
    (first [apply colon_stops | lia | apply re_M_reads; lia]).
  rewrite list_bind_one.
  destruct (re_S_reads ss HS []) as (more & ES & _). rewrite app_nil_r in ES.
  rewrite ES. cbn [mbind list_bind list.list_bind app].
  unfold mk_datetime. now rewrite Hd, Ht.
Qed.

(** ** [parse_timestamp] *)

Lemma localtime_of_fields tz Y m d hh mm ss off :
  valid_date Y m d = true -> valid_time hh mm ss 0 = true ->
  let t := seconds_since_epoch
             {| year := Y; month := m; day := d; hour := hh; minute := mm;
                second := ss; microsecond := 0; fold := 0 |} in
  tz (t - off) = off ->
  localtime tz (t - off) = (Y, m, d, hh, mm, ss).
Proof.
  intros Hd Ht t Hz. unfold localtime. rewrite Hz.
  replace (t - off + off) with t by lia.
  unfold t, seconds_since_epoch. cbn [year month day hour minute second].
  unfold valid_time in Ht. split_andb.
  set (n := ymd2ord Y m d).
  assert (Hq : ((n - EPOCH_ORD) * 86400 + hh * 3600 + mm * 60 + ss) / 86400 = n - EPOCH_ORD)
    by (Z.div_mod_to_equations; lia).
  assert (Hr : ((n - EPOCH_ORD) * 86400 + hh * 3600 + mm * 60 + ss) mod 86400
               = hh * 3600 + mm * 60 + ss)
    by (Z.div_mod_to_equations; lia).
  rewrite Hq, Hr. replace (n - EPOCH_ORD + EPOCH_ORD) with n by lia.
  unfold n. rewrite ord2ymd_ymd2ord.
  - repeat f_equal; Z.div_mod_to_equations; lia.
  - unfold valid_date in Hd. unfold month_day_ok. split_andb.
    repeat (apply andb_true_intro; split); apply Z.leb_le; lia.
Qed.

Lemma parse_timestamp_strict w st off Y m d hh mm ss :
  valid_date Y m d = true -> valid_time hh mm ss 0 = true ->
  let t := seconds_since_epoch
             {| year := Y; month := m; day := d; hour := hh; minute := mm;
                second := ss; microsecond := 0; fold := 0 |} in
  -86400 <= off <= 86400 ->
  MIN_SECONDS + 86400 <= t <= MAX_SECONDS - 86400 ->
  steady (utcoffset w) off (t - 2 * 86400) (t + 86400) ->
  parse_timestamp w (VStr (strict_format Y m d hh mm ss)) st = (Ok (t - off), st).
Proof.
  intros Hd Ht t Hoff Hr Hz. unfold parse_timestamp, try_except.
  rewrite (strptime_strict _ _ _ _ _ _ Hd Ht), bind_lift_ok.
  unfold int_timestamp.
  rewrite (mktime_steady _ off _ t);
    [| reflexivity | reflexivity | apply Hz; lia | apply Hz; lia | apply Hz; lia | lia | lia].
  cbn [mbind result_bind microsecond lift]. do 2 f_equal.
  rewrite Z.add_0_r. apply Z.quot_mul. lia.
Qed.

Lemma now_steady w st off s us :
  clock w (tick st) = (s, us) ->
  utcoffset w s = off -> utcoffset w (s - 86400) = off ->
  MIN_SECONDS + 86400 <= s + off <= MAX_SECONDS -> 0 <= us <= 999999 ->
  now w st = (Ok (civil (s + off) us),
              {| tick := S (tick st); trace := trace st ++ [EvClock] |}).
Proof.
  intros Hc H1 H2 Hr Hus. unfold now, time_time, call, mbind, M_bind. rewrite Hc.
  unfold lift. now rewrite (fromtimestamp_steady _ off).
Qed.

Lemma parse_timestamp_fallback w st v :
  strptime v = Raise ValueError ->
  parse_timestamp w v st = (dt ← now w; lift (int_timestamp (utcoffset w) dt)) st.
Proof. intros H. unfold parse_timestamp, try_except. now rewrite H. Qed.

Lemma parse_timestamp_now w st off v s us :
  strptime v = Raise ValueError ->
  clock w (tick st) = (s, us) ->
  -86400 <= off <= 86400 ->
  0 <= s <= MAX_SECONDS - 2 * 86400 -> 0 <= us <= 999999 ->
  steady (utcoffset w) off (s - 86400) (s + 86400) ->
  parse_timestamp w v st
  = (Ok s, {| tick := S (tick st); trace := trace st ++ [EvClock] |}).
Proof.
  intros Hv Hc Hoff Hs Hus Hz. rewrite parse_timestamp_fallback by assumption.
  assert (Hmin : MIN_SECONDS = -62135596800) by reflexivity.
  unfold mbind, M_bind.
  rewrite (now_steady w st off s us) by (try apply Hz; try assumption; lia).
  unfold lift, int_timestamp.
  rewrite (mktime_steady _ off _ (s + off));
    [| apply seconds_of_civil; lia | apply fold_civil
     | apply Hz; lia | replace (s + off - off) with s by lia; apply Hz; lia
     | replace (s + off - off - 86400) with (s - 86400) by lia; apply Hz; lia
     | lia | lia].
  cbn [mbind result_bind]. rewrite microsecond_civil. do 2 f_equal.
  replace (s + off - off) with s by lia.
  symmetry. apply (Z.quot_unique _ _ _ us); lia.
Qed.



(** ** Running the monad *)

Lemma bind_ok {A B} (m : M A) (k : A -> M B) st b st' :
  (m ≫= k) st = (Ok b, st') ->
  exists a st1, m st = (Ok a, st1) /\ k a st1 = (Ok b, st').
Proof.
  unfold mbind, M_bind. destruct (m st) as [[a | e] st1]; [eauto | discriminate].
Qed.

Lemma lift_ok {A} (r : result A) st a st' :
  lift r st = (Ok a, st') -> r = Ok a /\ st' = st.
Proof. unfold lift. intros [= -> ->]. auto. Qed.

Lemma ret_ok {A} (x : A) st a st' :
  mret (M := M) x st = (Ok a, st') -> a = x /\ st' = st.
Proof. unfold mret, M_ret. intros [= -> ->]. auto. Qed.

Lemma result_bind_ok {A B} (r : result A) (k : A -> result B) b :
  r ≫= k = Ok b -> exists a, r = Ok a /\ k a = Ok b.
Proof. destruct r as [a | e]; [eauto | discriminate]. Qed.

Ltac run_inv H :=
  repeat first
    [ let a := fresh "a" in let st := fresh "st" in let E := fresh "E" in
      apply bind_ok in H as (a & st & E & H);
      first [ apply lift_ok in E as [E ->] | idtac ];
      try (destruct a as [? ?])
    | apply ret_ok in H as [-> ->]
    | apply lift_ok in H as [H ->] ].

(** ** [site_reading] *)

(** What [site_reading] returns, step by step. *)
Lemma site_reading_inv w site st data st' :
  site_reading w site st = (Ok data, st') ->
  exists info site_info updated_time site_name tpv sp1 sp2 sp3 sp4 bp bcp hlp gthp ptgp thl ac ts,
    site !! "solarbank_info" = Some info /\
    battery_readings w info = Ok (bcp, bp) /\
    py_getitem info (VStr "updated_time") = Ok updated_time /\
    parse_timestamp w updated_time st = (Ok ts, st') /\
    site !! "site_info" = Some site_info /\
    py_getitem site_info (VStr "site_name") = Ok site_name /\
    (v ← py_getitem info (VStr "total_photovoltaic_power"); py_float (str_to_float w) v)
      = Ok tpv /\
    get_float w info "solar_power_1" = Ok sp1 /\
    get_float w info "solar_power_2" = Ok sp2 /\
    get_float w info "solar_power_3" = Ok sp3 /\
    get_float w info "solar_power_4" = Ok sp4 /\
    py_float (str_to_float w) (dict_get site "home_load_power" (VFloat fzero)) = Ok hlp /\
    get_float w (dict_get site "grid_info" (VDict ∅)) "grid_to_home_power" = Ok gthp /\
    get_float w (dict_get site "grid_info" (VDict ∅)) "photovoltaic_to_grid_power" = Ok ptgp /\
    get_float w info "to_home_load" = Ok thl /\
    get_float w info "ac_power" = Ok ac /\
    data = reading_dict site_name tpv sp1 sp2 sp3 sp4 bp bcp hlp gthp ptgp thl ac ts.
Proof.
  unfold site_reading. cbv zeta. intros H.
  run_inv H.
  unfold dict_getitem in *.
  destruct (site !! "solarbank_info") as [info |] eqn:Ei; [| discriminate].
  destruct (site !! "site_info") as [si |] eqn:Es; [| discriminate].
  repeat match goal with H : Ok _ = Ok _ |- _ => injection H as -> end.
  do 17 eexists. repeat (split; [eassumption || reflexivity |]). reflexivity.
Qed.

Lemma get_float_absent w d k x :
  get_float w (VDict d) k = Ok x -> d !! k = None -> x = fzero.
Proof.
  unfold get_float, py_get, dict_get. intros H Hk. rewrite Hk in H. cbn in H. congruence.
Qed.

Lemma get_float_dict w v k x : get_float w v k = Ok x -> exists d, v = VDict d.
Proof. destruct v; try discriminate. eauto. Qed.

Lemma getitem_str_dict v k r :
  py_getitem v (VStr k) = Ok r -> exists d, v = VDict d /\ d !! k = Some r.
Proof.
  destruct v; try discriminate. cbn. unfold dict_getitem.
  destruct (d !! k) eqn:E; [| discriminate]. intros [= ->]. eauto.
Qed.

Lemma battery_readings_inv w info bcp bp :
  battery_readings w info = Ok (bcp, bp) ->
  exists d sl, info = VDict d /\ d !! "solarbank_list" = Some sl /\
    ((py_truthy sl = false /\ bcp = fzero /\ bp = fzero) \/
     (exists bd rest cp bv, sl = VList (VDict bd :: rest) /\
        bd !! "charging_power" = Some cp /\ bd !! "battery_power" = Some bv)).
Proof.
  unfold battery_readings. intros H.
  apply result_bind_ok in H as (sl & E & H).
  apply getitem_str_dict in E as (d & -> & Ed). exists d, sl.
  split; [reflexivity |]. split; [assumption |].
  destruct (py_truthy sl) eqn:Et.
  - right. cbn [py_getitem] in H. unfold dict_getitem in H. rewrite Ed in H.
    cbn [mbind result_bind] in H.
    apply result_bind_ok in H as (fb & E1 & H).
    apply result_bind_ok in H as (cp & E2 & H).
    apply result_bind_ok in H as (x & _ & H).
    apply result_bind_ok in H as (bv & E3 & H).
    apply getitem_str_dict in E2 as (bd & -> & Ec).
    apply getitem_str_dict in E3 as (bd' & [= <-] & Eb).
    destruct sl as [| | | | s | l | d']; try discriminate.
    + exfalso. cbn in E1. unfold str_index in E1.
      destruct (list_index (list_ascii_of_string s) 0); discriminate.
    + cbn in E1. unfold list_index in E1. destruct l as [| b rest]; [discriminate |].
      cbn in E1. injection E1 as ->. eauto 10.
  - left. injection H as <- <-. auto.
Qed.

Lemma reading_dict_lookup sn tpv sp1 sp2 sp3 sp4 bp bcp hlp gthp ptgp thl ac ts :
  let data := reading_dict sn tpv sp1 sp2 sp3 sp4 bp bcp hlp gthp ptgp thl ac ts in
  data !! "site_name" = Some sn /\
  data !! "total_photovoltaic_power" = Some (VFloat tpv) /\
  data !! "solar_power_1" = Some (VFloat sp1) /\
  data !! "solar_power_2" = Some (VFloat sp2) /\
  data !! "solar_power_3" = Some (VFloat sp3) /\
  data !! "solar_power_4" = Some (VFloat sp4) /\
  data !! "battery_percentage" = Some (VFloat bp) /\
  data !! "battery_charge_power" = Some (VFloat bcp) /\
  data !! "home_load_power" = Some (VFloat hlp) /\
  data !! "grid_to_home_power" = Some (VFloat gthp) /\
  data !! "photovoltaic_to_grid_power" = Some (VFloat ptgp) /\
  data !! "to_home_load" = Some (VFloat thl) /\
  data !! "ac_power" = Some (VFloat ac) /\
  data !! "timestamp" = Some (VInt ts).
Proof. repeat split; vm_compute; reflexivity. Qed.

Lemma power_fields_cases name :
  name ∈ power_fields ->
  name = "total_photovoltaic_power" \/ name = "solar_power_1" \/ name = "solar_power_2"
  \/ name = "solar_power_3" \/ name = "solar_power_4" \/ name = "battery_percentage"
  \/ name = "battery_charge_power" \/ name = "home_load_power"
  \/ name = "grid_to_home_power" \/ name = "photovoltaic_to_grid_power"
  \/ name = "to_home_load" \/ name = "ac_power".
Proof.
  unfold power_fields. rewrite !elem_of_cons, elem_of_nil. tauto.
Qed.

(** Whenever a record is produced, every power field missing upstream is
    [0.0] in it. *)
Lemma site_reading_zeros w site st data st' :
  site_reading w site st = (Ok data, st') -> absent_fields_zero site data.
Proof.
  intros H.
  apply site_reading_inv in H
    as (info & si & ut & sn & tpv & sp1 & sp2 & sp3 & sp4 & bp & bcp & hlp & gthp & ptgp
        & thl & ac & ts & Ei & Eb & _ & _ & _ & _ & Et & E1 & E2 & E3 & E4 & Eh & Eg & Ep
        & El & Ea & ->).
  pose proof (reading_dict_lookup sn tpv sp1 sp2 sp3 sp4 bp bcp hlp gthp ptgp thl ac ts)
    as (_ & L0 & L1 & L2 & L3 & L4 & L5 & L6 & L7 & L8 & L9 & L10 & L11 & _).
  apply battery_readings_inv in Eb as (d & sl & -> & Esl & Hb).
  apply result_bind_ok in Et as (v & Ev & _).
  apply getitem_str_dict in Ev as (d' & [= <-] & Ev).
  intros name Hn Hup. apply power_fields_cases in Hn.
  unfold upstream, first_bank, at_key in Hup. rewrite Ei, ?Esl in Hup.
  repeat destruct Hn as [-> | Hn]; try subst name; cbn in Hup.
  - congruence.
  - rewrite L1. now rewrite (get_float_absent _ _ _ _ E1 Hup).
  - rewrite L2. now rewrite (get_float_absent _ _ _ _ E2 Hup).
  - rewrite L3. now rewrite (get_float_absent _ _ _ _ E3 Hup).
  - rewrite L4. now rewrite (get_float_absent _ _ _ _ E4 Hup).
  - rewrite L5. destruct Hb as [(_ & _ & ->) | (bd & rest & cp & bv & -> & Hc & Hv)];
      [reflexivity | congruence].
  - rewrite L6. destruct Hb as [(_ & -> & _) | (bd & rest & cp & bv & -> & Hc & Hv)];
      [reflexivity | congruence].
  - rewrite L7. unfold dict_get in Eh. rewrite Hup in Eh. cbn in Eh. congruence.
  - rewrite L8. unfold dict_get in Eg.
    destruct (site !! "grid_info") as [g |].
    + destruct (get_float_dict _ _ _ _ Eg) as (gd & ->).
      now rewrite (get_float_absent _ _ _ _ Eg Hup).
    + now rewrite (get_float_absent _ _ _ _ Eg (lookup_empty _)).
  - rewrite L9. unfold dict_get in Ep.
    destruct (site !! "grid_info") as [g |].
    + destruct (get_float_dict _ _ _ _ Ep) as (gd & ->).
      now rewrite (get_float_absent _ _ _ _ Ep Hup).
    + now rewrite (get_float_absent _ _ _ _ Ep (lookup_empty _)).
  - rewrite L10. now rewrite (get_float_absent _ _ _ _ El Hup).
  - rewrite L11. now rewrite (get_float_absent _ _ _ _ Ea Hup).
Qed.

Lemma get_float_total w d k :
  (forall v, d !! k = Some v -> is_Ok (py_float (str_to_float w) v) = true) ->
  exists x, get_float w (VDict d) k = Ok x.
Proof.
  intros H. unfold get_float, py_get, dict_get. cbn [mbind result_bind].
  destruct (d !! k) as [v |].
  - specialize (H v eq_refl). destruct (py_float _ v); [eauto | discriminate].
  - cbn. eauto.
Qed.

Lemma list_index_head {A} (x : A) l : list_index (x :: l) 0 = Ok x.
Proof.
  unfold list_index. cbn [length]. rewrite Nat2Z.inj_succ.
  replace (0 <? 0) with false by reflexivity.
  replace ((0 <=? 0) && (0 <? Z.succ (Z.of_nat (length l)))) with true; [reflexivity |].
  symmetry. apply andb_true_intro. split; [reflexivity | apply Z.ltb_lt; lia].
Qed.

Lemma is_Ok_inv {A} (r : result A) : is_Ok r = true -> exists a, r = Ok a.
Proof. destruct r; [eauto | discriminate]. Qed.

(** C1, as amended.  A site whose solar-bank block has [solarbank_list] (a
    list whose first bank, if any, has [charging_power] and [battery_power]),
    [updated_time] (from which a timestamp is obtained) and
    [total_photovoltaic_power], which has [site_info] with a [site_name],
    whose [grid_info], if present, is a dict, and whose present power values
    all convert to float, gets a record; and in that record every optional
    power field the reading lacks is exactly [0.0]. *)
Theorem normalization_total w site st info banks site_info site_name tpv updated_time ts st' :
  site !! "solarbank_info" = Some (VDict info) ->
  info !! "solarbank_list" = Some (VList banks) ->
  match banks with
  | [] => True
  | bank :: _ => exists bd cp bv, bank = VDict bd /\ bd !! "charging_power" = Some cp
                                  /\ bd !! "battery_power" = Some bv
  end ->
  info !! "updated_time" = Some updated_time ->
  parse_timestamp w updated_time st = (Ok ts, st') ->
  site !! "site_info" = Some (VDict site_info) ->
  site_info !! "site_name" = Some site_name ->
  info !! "total_photovoltaic_power" = Some tpv ->
  (site !! "grid_info" = None \/ exists g, site !! "grid_info" = Some (VDict g)) ->
  (forall name v, name ∈ power_fields -> upstream site name = Some v ->
     is_Ok (py_float (str_to_float w) v) = true) ->
  exists data, site_reading w site st = (Ok data, st') /\ absent_fields_zero site data.
Proof.
  intros Hinfo Hsl Hbank Hut Hts Hsi Hsn Htpv Hgrid Hfloat.
  assert (Hin : forall name, In name power_fields -> name ∈ power_fields)
    by (intros; now apply list_elem_of_In).
  assert (Hb : exists bcp bp, battery_readings w (VDict info) = Ok (bcp, bp)).
  { unfold battery_readings. cbn [py_getitem]. unfold dict_getitem. rewrite Hsl.
    cbn [mbind result_bind py_truthy]. destruct banks as [| bank rest]; [eauto |].
    destruct Hbank as (bd & cp & bv & -> & Hc & Hv).
    cbn [py_getitem]. rewrite list_index_head. cbn [mbind result_bind py_getitem].
    unfold dict_getitem. rewrite Hc. cbn [mbind result_bind].
    destruct (is_Ok_inv _ (Hfloat "battery_charge_power" cp
                             ltac:(apply Hin; cbn; tauto)
                             ltac:(unfold upstream, first_bank, at_key; cbn;
                                   now rewrite Hinfo, Hsl))) as (x & ->).
    cbn [mbind result_bind]. rewrite Hv. cbn [mbind result_bind].
    destruct (is_Ok_inv _ (Hfloat "battery_percentage" bv
                             ltac:(apply Hin; cbn; tauto)
                             ltac:(unfold upstream, first_bank, at_key; cbn;
                                   now rewrite Hinfo, Hsl))) as (y & ->).
    cbn. eauto. }
  destruct Hb as (bcp & bp & Hb).
  assert (Hi : forall k, In k ["solar_power_1"; "solar_power_2"; "solar_power_3";
                               "solar_power_4"; "to_home_load"; "ac_power"] ->
                         exists x, get_float w (VDict info) k = Ok x).
  { intros k Hk. apply get_float_total. intros v Hv.
    apply (Hfloat k); [apply Hin; cbn in *; tauto |].
    cbn in Hk. unfold upstream, at_key. rewrite Hinfo.
    repeat (destruct Hk as [<- | Hk]; [exact Hv |]). destruct Hk. }
  destruct (Hi "solar_power_1" ltac:(cbn; tauto)) as (sp1 & E1).
  destruct (Hi "solar_power_2" ltac:(cbn; tauto)) as (sp2 & E2).
  destruct (Hi "solar_power_3" ltac:(cbn; tauto)) as (sp3 & E3).
  destruct (Hi "solar_power_4" ltac:(cbn; tauto)) as (sp4 & E4).
  destruct (Hi "to_home_load" ltac:(cbn; tauto)) as (thl & El).
  destruct (Hi "ac_power" ltac:(cbn; tauto)) as (ac & Ea).
  destruct (is_Ok_inv _ (Hfloat "total_photovoltaic_power" tpv
                           ltac:(apply Hin; cbn; tauto)
                           ltac:(unfold upstream, at_key; cbn; now rewrite Hinfo)))
    as (tp & Etp).
  assert (Eh : exists hlp,
             py_float (str_to_float w) (dict_get site "home_load_power" (VFloat fzero))
             = Ok hlp).
  { unfold dict_get. destruct (site !! "home_load_power") as [v |] eqn:Ev; [| cbn; eauto].
    apply is_Ok_inv. apply (Hfloat "home_load_power"); [apply Hin; cbn; tauto |].
    exact Ev. }
  destruct Eh as (hlp & Eh).
  assert (Eg : forall k, In k ["grid_to_home_power"; "photovoltaic_to_grid_power"] ->
                 exists x, get_float w (dict_get site "grid_info" (VDict ∅)) k = Ok x).
  { intros k Hk. unfold dict_get.
    destruct Hgrid as [Hg | (g & Hg)]; rewrite Hg; apply get_float_total; intros v Hv.
    - rewrite lookup_empty in Hv. discriminate.
    - apply (Hfloat k); [apply Hin; cbn in *; tauto |].
      cbn in Hk. unfold upstream, at_key. rewrite Hg.
      repeat (destruct Hk as [<- | Hk]; [exact Hv |]). destruct Hk. }
  destruct (Eg "grid_to_home_power" ltac:(cbn; tauto)) as (gthp & Eg1).
  destruct (Eg "photovoltaic_to_grid_power" ltac:(cbn; tauto)) as (ptgp & Eg2).
  assert (E : site_reading w site st
              = (Ok (reading_dict site_name tp sp1 sp2 sp3 sp4 bp bcp hlp gthp ptgp thl ac ts),
                 st')).
  { unfold site_reading. cbv zeta. unfold dict_getitem. rewrite Hinfo, bind_lift_ok.
    rewrite Hb, bind_lift_ok. cbn [py_getitem]. unfold dict_getitem.
    rewrite Hut, bind_lift_ok. unfold mbind at 1. unfold M_bind. rewrite Hts.
    rewrite Hsi, bind_lift_ok. cbn [py_getitem]. unfold dict_getitem.
    rewrite Hsn, bind_lift_ok, Htpv. cbn [mbind result_bind]. rewrite Etp, bind_lift_ok.
    rewrite E1, bind_lift_ok, E2, bind_lift_ok, E3, bind_lift_ok, E4, bind_lift_ok.
    rewrite Eh, bind_lift_ok, Eg1, bind_lift_ok, Eg2, bind_lift_ok.
    rewrite El, bind_lift_ok, Ea, bind_lift_ok. reflexivity. }
  eexists. split; [exact E |]. exact (site_reading_zeros _ _ _ _ _ E).
Qed.

Lemma normalization_total_witness :
  exists data,
    site_reading (world_with [site_example]) site_example initial = (Ok data, initial)
    /\ absent_fields_zero site_example data.
Proof.
  eapply (normalization_total (world_with [site_example]) site_example initial).
  - vm_compute. reflexivity.
  - vm_compute. reflexivity.
  - cbv beta iota. eexists _, _, _. split; [reflexivity |]. split; vm_compute; reflexivity.
  - vm_compute. reflexivity.
  - vm_compute. reflexivity.
  - vm_compute. reflexivity.
  - vm_compute. reflexivity.
  - vm_compute. reflexivity.
  - left. vm_compute. reflexivity.
  - intros name v Hn Hu. apply power_fields_cases in Hn.
    repeat destruct Hn as [-> | Hn]; try subst name; vm_compute in Hu;
      try discriminate; injection Hu as <-; reflexivity.
Defined.

(** C1, as stated, fails on a site whose solar-bank block has no
    [total_photovoltaic_power]: the normalizer raises [KeyError]. *)
Lemma normalization_faults :
  has_solarbank_info site_without_total = true /\
  upstream site_without_total "total_photovoltaic_power" = None /\
  site_reading (world_with [site_without_total]) site_without_total initial
  = (Raise (KeyError (VStr "total_photovoltaic_power")), initial) /\
  ~ normalization_claim (world_with [site_without_total]) site_without_total initial.
Proof.
  assert (E : site_reading (world_with [site_without_total]) site_without_total initial
              = (Raise (KeyError (VStr "total_photovoltaic_power")), initial))
    by (vm_compute; reflexivity).
  split; [vm_compute; reflexivity |]. split; [vm_compute; reflexivity |].
  split; [exact E |].
  intros H. destruct (H ltac:(vm_compute; reflexivity)) as (data & st' & E' & _).
  rewrite E in E'. discriminate.
Qed.

(** ** [fetch_anker_data] *)

Lemma for_sites_skip w sites1 site sites2 : forall acc st,
  has_solarbank_info site = false ->
  for_sites w (sites1 ++ site :: sites2) acc st = for_sites w (sites1 ++ sites2) acc st.
Proof.
  induction sites1 as [| s sites1 IH]; intros acc st Hs.
  - cbn [app for_sites]. rewrite Hs. reflexivity.
  - cbn [app for_sites]. unfold mbind, M_bind.
    match goal with
    | |- match ?x with _ => _ end = _ => destruct x as [[a | e] st1]
    end; [| reflexivity].
    now apply IH.
Qed.

Lemma for_sites_readings w sites : forall acc st data st',
  for_sites w sites acc st = (Ok data, st') ->
  exists new, data = acc ++ new /\
    Forall2 (reading_of w) (List.filter has_solarbank_info sites) new.
Proof.
  induction sites as [| site sites IH]; intros acc st data st' H.
  - cbn in H. apply ret_ok in H as [-> ->]. exists []. rewrite app_nil_r. auto.
  - cbn [for_sites] in H. apply bind_ok in H as (acc' & st1 & E & H).
    apply IH in H as (new & -> & HF). cbn [List.filter].
    destruct (has_solarbank_info site).
    + apply bind_ok in E as (d & st2 & Ed & E). apply ret_ok in E as [-> ->].
      exists (d :: new). rewrite <- app_assoc. split; [reflexivity |].
      constructor; [| assumption]. now exists st, st2.
    + apply ret_ok in E as [-> ->]. eauto.
Qed.

Lemma fetch_anker_data_sites w st sites :
  update_sites w (tick st) = Ok sites ->
  fetch_anker_data w st
  = for_sites w sites [] {| tick := S (tick st); trace := trace st ++ [EvUpdateSites] |}.
Proof. intros H. unfold fetch_anker_data, mbind, M_bind, call. now rewrite H. Qed.

Lemma fetch_anker_data_inv w st data st' :
  fetch_anker_data w st = (Ok data, st') ->
  exists sites, update_sites w (tick st) = Ok sites /\
    Forall2 (reading_of w) (List.filter has_solarbank_info sites) data.
Proof.
  intros H. unfold fetch_anker_data in H. apply bind_ok in H as (sites & st1 & E & H).
  unfold call in E. injection E as E _. exists sites. split; [assumption |].
  apply for_sites_readings in H as (new & -> & HF). exact HF.
Qed.


(** Two sites, the first without the block: one record, the second site's. *)
Example fetch_two_sites :
  (data ← (fetch_anker_data (world_with [site_without_block; site_example]) initial).1;
   Ok (length data, (data !! 0%nat) ≫= (fun d => d !! "site_name")))
  = Ok (1%nat, Some (VStr "home")).
Proof. vm_compute. reflexivity. Qed.

(** ** Records and points *)

Lemma reading_dict_complete sn tpv sp1 sp2 sp3 sp4 bp bcp hlp gthp ptgp thl ac ts :
  complete_record (reading_dict sn tpv sp1 sp2 sp3 sp4 bp bcp hlp gthp ptgp thl ac ts).
Proof.
  pose proof (reading_dict_lookup sn tpv sp1 sp2 sp3 sp4 bp bcp hlp gthp ptgp thl ac ts)
    as (_ & L0 & L1 & L2 & L3 & L4 & L5 & L6 & L7 & L8 & L9 & L10 & L11 & L12).
  split; [| split].
  - unfold reading_dict. rewrite dom_list_to_map_L. reflexivity.
  - intros name Hn. apply power_fields_cases in Hn.
    repeat destruct Hn as [-> | Hn]; try subst name; eauto.
  - eauto.
Qed.

Lemma reading_dict_point sn tpv sp1 sp2 sp3 sp4 bp bcp hlp gthp ptgp thl ac ts :
  exists p,
    power_point (reading_dict sn tpv sp1 sp2 sp3 sp4 bp bcp hlp gthp ptgp thl ac ts) = Ok p
    /\ point_name p = "anker_power"
    /\ dom (point_fields p) = list_to_set power_fields.
Proof.
  pose proof (reading_dict_lookup sn tpv sp1 sp2 sp3 sp4 bp bcp hlp gthp ptgp thl ac ts)
    as (L & L0 & L1 & L2 & L3 & L4 & L5 & L6 & L7 & L8 & L9 & L10 & L11 & L12).
  cbv zeta in *.
  unfold power_point, field_from, dict_getitem.
  rewrite L, L0, L1, L2, L3, L4, L5, L6, L7, L8, L9, L10, L11, L12.
  cbn [mbind result_bind]. eexists. split; [reflexivity |]. split; [reflexivity |].
  cbn [point_fields time field tag new_point].
  rewrite !dom_insert_L, dom_empty_L. cbn [power_fields list_to_set foldr].
  set_solver.
Qed.

Lemma reading_of_dict w site data :
  reading_of w site data ->
  exists sn tpv sp1 sp2 sp3 sp4 bp bcp hlp gthp ptgp thl ac ts,
    data = reading_dict sn tpv sp1 sp2 sp3 sp4 bp bcp hlp gthp ptgp thl ac ts.
Proof.
  intros (st & st' & H).
  apply site_reading_inv in H
    as (info & si & ut & sn & tpv & sp1 & sp2 & sp3 & sp4 & bp & bcp & hlp & gthp & ptgp
        & thl & ac & ts & _ & _ & _ & _ & _ & _ & _ & _ & _ & _ & _ & _ & _ & _ & _ & _ & ->).
  now exists sn, tpv, sp1, sp2, sp3, sp4, bp, bcp, hlp, gthp, ptgp, thl, ac, ts.
Qed.

Lemma emits_bind_lift {A B} (r : result A) (k : A -> M B) P :
  (forall a, r = Ok a -> emits (k a) P) -> emits (lift r ≫= k) P.
Proof.
  intros Hk. destruct r as [a | e].
  - rewrite bind_lift_ok. now apply Hk.
  - rewrite bind_lift_raise. apply emits_lift.
Qed.

Lemma calculate_daily_stats_emits w site_name current_timestamp (P : event -> Prop) :
  (forall org q, P (EvQuery org q)) -> (forall m, P (EvPrint m)) ->
  emits (calculate_daily_stats w site_name current_timestamp) P.
Proof.
  intros Hq Hp. unfold calculate_daily_stats, query, print.
  repeat first
    [ apply emits_ret | apply emits_lift | apply emits_call; auto
    | apply emits_bind; [| intros ?]
    | apply emits_try_except; [| intros ? ? [= <-]] ].
Qed.

Lemma stats_point_name site_data stats p :
  stats_point site_data stats = Ok p -> point_name p = "anker_daily_stats".
Proof.
  unfold stats_point. intros H.
  repeat (apply result_bind_ok in H as (? & _ & H)).
  injection H as <-. reflexivity.
Qed.

Lemma write_site_fields w site data :
  reading_of w site data -> emits (write_site w data) carries_all_fields.
Proof.
  intros Hr.
  destruct (reading_of_dict _ _ _ Hr)
    as (sn & tpv & sp1 & sp2 & sp3 & sp4 & bp & bcp & hlp & gthp & ptgp & thl & ac & ts & ->).
  destruct (reading_dict_point sn tpv sp1 sp2 sp3 sp4 bp bcp hlp gthp ptgp thl ac ts)
    as (p & Ep & Hn & Hd).
  unfold write_site. rewrite Ep, bind_lift_ok. unfold write.
  apply emits_bind; [apply emits_call; intros _; exact Hd |]. intros _.
  apply emits_bind; [apply emits_lift |]. intros site_name.
  apply emits_bind; [apply emits_lift |]. intros timestamp.
  apply emits_bind; [apply calculate_daily_stats_emits; intros; exact I |].
  intros [stats |]; [| apply emits_ret].
  destruct (bool_decide (stats = ∅)); [apply emits_ret |].
  apply emits_bind_lift. intros q Hq. apply emits_call. cbn.
  rewrite (stats_point_name _ _ _ Hq). discriminate.
Qed.

Lemma write_to_influx_fields w sites data :
  Forall2 (reading_of w) sites data -> emits (write_to_influx w data) carries_all_fields.
Proof.
  intros HF. unfold write_to_influx. apply emits_try_finally.
  - induction HF as [| site d sites data Hr HF IH]; cbn [for_site_data].
    + apply emits_ret.
    + apply emits_bind; [now apply (write_site_fields w site) | intros _; exact IH].
  - apply emits_call. exact I.
Qed.

(** C9.  Every record [fetch_anker_data] returns has the same fixed keys
    (the site name, the timestamp and the twelve power metrics) with a float
    for every power metric and an int for the timestamp; and every
    [anker_power] point [write_to_influx] writes for those records carries
    the twelve fields. *)
Theorem complete_field_set w st data st' :
  fetch_anker_data w st = (Ok data, st') ->
  Forall complete_record data /\
  emits (write_to_influx w data) carries_all_fields.
Proof.
  intros H. apply fetch_anker_data_inv in H as (sites & _ & HF). split.
  - clear st st'. induction HF as [| site d sites' data Hr HF IH]; constructor; [| exact IH].
    destruct (reading_of_dict _ _ _ Hr)
      as (sn & tpv & sp1 & sp2 & sp3 & sp4 & bp & bcp & hlp & gthp & ptgp & thl & ac & ts & ->).
    apply reading_dict_complete.
  - eapply write_to_influx_fields. exact HF.
Qed.

Lemma complete_field_set_witness :
  exists data st',
    fetch_anker_data (world_with [site_without_block; site_example]) initial = (Ok data, st')
    /\ Forall complete_record data
    /\ emits (write_to_influx (world_with [site_without_block; site_example]) data)
             carries_all_fields.
Proof.
  assert (Hok : is_Ok (fetch_anker_data (world_with [site_without_block; site_example])
                         initial).1 = true) by (vm_compute; reflexivity).
  destruct (fetch_anker_data (world_with [site_without_block; site_example]) initial)
    as [[data | e] st'] eqn:E; [| discriminate].
  exists data, st'. split; [reflexivity |].
  exact (complete_field_set _ _ _ _ E).
Defined.

(** ** Daily statistics *)


(** The example of the specification. *)
Example derived_formula :
  daily_stats_of 1000 1200 400 = Ok (stats_dict 1000 1200 60 50).
Proof. rewrite daily_stats_of_eq. do 2 f_equal. Qed.


(** ** Query results *)

Lemma extract_value_empty w : extract_value w [] = Ok fzero.
Proof. reflexivity. Qed.

(** What [calculate_daily_stats] does when the three queries are answered. *)
Lemma calculate_daily_stats_answered w site_name current_timestamp st start c g i :
  start_of_day w current_timestamp = Ok start ->
  store_query w (tick st) (INFLUX_ORG (config w)) (consumption_query w start site_name)
  = Ok c ->
  store_query w (S (tick st)) (INFLUX_ORG (config w)) (generation_query w start site_name)
  = Ok g ->
  store_query w (S (S (tick st))) (INFLUX_ORG (config w))
    (grid_import_query w start site_name) = Ok i ->
  calculate_daily_stats w site_name current_timestamp st
  = match stats_of_results w c g i with
    | Ok stats =>
        (Ok (Some stats),
         {| tick := S (S (S (tick st)));
            trace := ((trace st
                       ++ [EvQuery (INFLUX_ORG (config w)) (consumption_query w start site_name)])
                       ++ [EvQuery (INFLUX_ORG (config w)) (generation_query w start site_name)])
                       ++ [EvQuery (INFLUX_ORG (config w)) (grid_import_query w start site_name)] |})
    | Raise e =>
        (Ok None,
         {| tick := S (S (S (S (tick st))));
            trace := (((trace st
                       ++ [EvQuery (INFLUX_ORG (config w)) (consumption_query w start site_name)])
                       ++ [EvQuery (INFLUX_ORG (config w)) (generation_query w start site_name)])
                       ++ [EvQuery (INFLUX_ORG (config w)) (grid_import_query w start site_name)])
                       ++ [EvPrint (MsgStatsError e)] |})
    end.
Proof.
  intros Hs Hc Hg Hi. unfold calculate_daily_stats. rewrite Hs, bind_lift_ok.
  unfold try_except, query, call, mbind, M_bind. cbn [tick trace].
  rewrite Hc, Hg, Hi. unfold lift.
  destruct (stats_of_results w c g i); reflexivity.
Qed.




(** ** The collection loop *)

Ltac emits_auto :=
  repeat first
    [ apply emits_ret | apply emits_lift | apply emits_call; exact I
    | apply emits_bind; [| intros ?]
    | apply emits_try_except; [| intros ? ? [= <-]]
    | apply emits_try_finally
    | match goal with
      | |- emits (match ?x with _ => _ end) _ => destruct x
      | |- emits (if ?b then _ else _) _ => destruct b
      | |- emits (let '(_, _) := ?x in _) _ => destruct x
      end ].

Lemma parse_timestamp_inner w v : emits (parse_timestamp w v) inner.
Proof.
  unfold parse_timestamp, now, time_time. apply emits_try_except.
  - emits_auto.
  - intros e h He. destruct e; try discriminate. injection He as <-. emits_auto.
Qed.

Lemma site_reading_inner w site : emits (site_reading w site) inner.
Proof.
  unfold site_reading. cbv zeta.
  repeat first [ apply parse_timestamp_inner | apply emits_ret | apply emits_lift
               | apply emits_bind; [| intros ?]
               | match goal with
                 | |- emits (let '(_, _) := ?x in _) _ => destruct x
                 end ].
Qed.

Lemma for_sites_inner w sites : forall acc, emits (for_sites w sites acc) inner.
Proof.
  induction sites as [| site sites IH]; intros acc; cbn [for_sites].
  - apply emits_ret.
  - apply emits_bind; [| intros ?; apply IH].
    destruct (has_solarbank_info site); [| apply emits_ret].
    apply emits_bind; [apply site_reading_inner | intros ?; apply emits_ret].
Qed.

Lemma write_site_inner w site_data : emits (write_site w site_data) inner.
Proof.
  unfold write_site, write.
  repeat first
    [ apply calculate_daily_stats_emits; intros; exact I
    | apply emits_ret | apply emits_lift | apply emits_call; exact I
    | apply emits_bind; [| intros ?]
    | match goal with
      | |- emits (match ?x with _ => _ end) _ => destruct x
      | |- emits (if ?b then _ else _) _ => destruct b
      end ].
Qed.

Lemma write_to_influx_inner w data : emits (write_to_influx w data) inner.
Proof.
  unfold write_to_influx. apply emits_try_finally; [| apply emits_call; exact I].
  induction data as [| site_data data IH]; cbn [for_site_data].
  - apply emits_ret.
  - apply emits_bind; [apply write_site_inner | intros _; exact IH].
Qed.

Lemma skeleton_inner evs : Forall inner evs -> skeleton evs = [].
Proof.
  induction 1 as [| ev evs Hev _ IH]; [reflexivity |].
  unfold skeleton in *. cbn [List.filter]. rewrite IH.
  destruct ev; try reflexivity; destruct Hev.
Qed.

Lemma skeleton_app evs1 evs2 : skeleton (evs1 ++ evs2) = skeleton evs1 ++ skeleton evs2.
Proof. apply List.filter_app. Qed.

(** One pass of the loop body never raises: it fetches once, whatever the
    fetch and the writes do, adds one to [iterations], and sleeps once if
    iterations are left. *)
Lemma cycle_run w d iterations max_iterations st :
  exists st' evs,
    cycle w d iterations max_iterations st = (Ok (iterations + 1), st') /\
    trace st' = trace st ++ EvUpdateSites :: evs
                ++ (if iterations + 1 <? max_iterations then [EvSleep d] else []) /\
    Forall inner evs.
Proof.
  unfold cycle.
  set (handler := fun error : exn => Some (print (MsgError error))).
  set (rest := fun data : list (gmap string pyval) =>
                 match data with
                 | [] => print (MsgNoData (iterations + 1) max_iterations)
                 | _ :: _ =>
                     write_to_influx w data;; now w;;
                     print (MsgWritten (iterations + 1) max_iterations)
                 end).
  assert (Hrest : forall data, emits (rest data) inner).
  { intros data. unfold rest, print, now, time_time. destruct data.
    - apply emits_call. exact I.
    - apply emits_bind; [apply write_to_influx_inner | intros _].
      apply emits_bind; [| intros _; apply emits_call; exact I].
      apply emits_bind; [apply emits_call; exact I | intros [s us]; apply emits_lift]. }
  assert (Hbody : exists st1 evs,
             try_except (fetch_anker_data w ≫= rest) handler st = (Ok tt, st1) /\
             trace st1 = trace st ++ EvUpdateSites :: evs /\ Forall inner evs).
  { set (st0 := {| tick := S (tick st); trace := trace st ++ [EvUpdateSites] |}).
    assert (Hin : emits (try_except (sites ← lift (update_sites w (tick st));
                                     for_sites w sites [] ≫= rest) handler) inner).
    { apply emits_try_except.
      - apply emits_bind; [apply emits_lift | intros sites].
        apply emits_bind; [apply for_sites_inner | exact Hrest].
      - intros e h [= <-]. apply emits_call. exact I. }
    assert (E : try_except (fetch_anker_data w ≫= rest) handler st
                = try_except (sites ← lift (update_sites w (tick st));
                              for_sites w sites [] ≫= rest) handler st0).
    { unfold try_except, fetch_anker_data, mbind, M_bind, call, lift. fold st0.
      destruct (update_sites w (tick st)); reflexivity. }
    rewrite E.
    destruct (try_except (sites ← lift (update_sites w (tick st));
                          for_sites w sites [] ≫= rest) handler st0)
      as [r st1] eqn:Er.
    destruct (Hin _ _ _ Er) as (evs & Ht & Hf).
    assert (Hr : r = Ok tt).
    { unfold try_except in Er.
      destruct ((sites ← lift (update_sites w (tick st)); for_sites w sites [] ≫= rest) st0)
        as [[[] | e] st2].
      - now injection Er as <- _.
      - unfold handler, print, call in Er. now injection Er as <- _. }
    subst r. exists st1, evs. split; [reflexivity |]. split; [| exact Hf].
    rewrite Ht. unfold st0. cbn [trace]. now rewrite <- app_assoc. }
  destruct Hbody as (st1 & evs & Eb & Ht & Hf).
  unfold try_finally. fold handler. fold rest. rewrite Eb.
  unfold mbind, M_bind, sleep, call. cbv zeta.
  destruct (iterations + 1 <? max_iterations).
  - eexists _, evs. split; [reflexivity |]. cbn [trace]. split; [| exact Hf].
    rewrite Ht. now rewrite <- app_assoc.
  - eexists _, evs. split; [reflexivity |]. split; [| exact Hf].
    cbn. rewrite Ht. now rewrite app_nil_r.
Qed.

Lemma rounds_step k d :
  rounds (S k) d = EvUpdateSites :: (if (0 <? Z.of_nat k) then [EvSleep d] else [])
                   ++ rounds k d.
Proof. destruct k; reflexivity. Qed.

(** The loop runs to the end of its budget: from [iterations], with fuel
    for the iterations left, it ends with [iterations = max_iterations], and
    its fetches and sleeps are those of that many rounds. *)
Lemma while_loop_rounds w d max_iterations : forall fuel iterations st,
  (Z.to_nat (max_iterations - iterations) <= fuel)%nat ->
  exists st' evs,
    while_loop w fuel d iterations max_iterations st
    = (Ok (Some (Z.max iterations max_iterations)), st') /\
    trace st' = trace st ++ evs /\
    skeleton evs = rounds (Z.to_nat (max_iterations - iterations)) d.
Proof.
  induction fuel as [| fuel IH]; intros iterations st Hfuel.
  - cbn [while_loop]. destruct (iterations <? max_iterations) eqn:Hlt.
    + apply Z.ltb_lt in Hlt. lia.
    + apply Z.ltb_ge in Hlt. exists st, []. rewrite app_nil_r.
      replace (Z.max iterations max_iterations) with iterations by lia.
      replace (Z.to_nat (max_iterations - iterations)) with 0%nat by lia.
      auto.
  - cbn [while_loop]. destruct (iterations <? max_iterations) eqn:Hlt.
    + apply Z.ltb_lt in Hlt.
      destruct (cycle_run w d iterations max_iterations st) as (st1 & evs1 & Ec & Ht1 & Hf).
      destruct (IH (iterations + 1) st1 ltac:(lia)) as (st' & evs2 & El & Ht2 & Hs).
      exists st', (EvUpdateSites :: evs1
                   ++ (if iterations + 1 <? max_iterations then [EvSleep d] else [])
                   ++ evs2).
      split; [| split].
      * unfold mbind, M_bind. rewrite Ec, El. do 3 f_equal. lia.
      * rewrite Ht2, Ht1, <- app_assoc. f_equal. cbn [app]. f_equal.
        now rewrite <- app_assoc.
      * replace (Z.to_nat (max_iterations - iterations))
          with (S (Z.to_nat (max_iterations - (iterations + 1)))) by lia.
        rewrite rounds_step.
        change (EvUpdateSites :: evs1 ++ ?l ++ evs2) with ([EvUpdateSites] ++ evs1 ++ l ++ evs2).
        rewrite !skeleton_app, (skeleton_inner _ Hf), Hs. cbn [app].
        rewrite Z2Nat.id by lia.
        replace (0 <? max_iterations - (iterations + 1))
          with (iterations + 1 <? max_iterations)
          by (destruct (Z.ltb_spec (iterations + 1) max_iterations);
              destruct (Z.ltb_spec 0 (max_iterations - (iterations + 1))); lia).
        destruct (iterations + 1 <? max_iterations); reflexivity.
    + apply Z.ltb_ge in Hlt. exists st, []. rewrite app_nil_r.
      replace (Z.max iterations max_iterations) with iterations by lia.
      replace (Z.to_nat (max_iterations - iterations)) with 0%nat by lia.
      auto.
Qed.

Lemma fetches_of_rounds k d : length (List.filter is_fetch (rounds k d)) = k.
Proof.
  induction k as [| k IH]; [reflexivity |].
  rewrite rounds_step. cbn [List.filter is_fetch length]. rewrite List.filter_app.
  rewrite length_app, IH. destruct (0 <? Z.of_nat k); reflexivity.
Qed.

Lemma sleeps_of_rounds k d : length (List.filter is_sleep (rounds k d)) = (k - 1)%nat.
Proof.
  induction k as [| k IH]; [reflexivity |].
  rewrite rounds_step. cbn [List.filter is_sleep]. rewrite List.filter_app, length_app, IH.
  destruct k; [reflexivity |].
  replace (0 <? Z.of_nat (S k)) with true by (symmetry; apply Z.ltb_lt; lia).
  cbn. lia.
Qed.

Lemma last_of_rounds k d : last (rounds (S k) d) = Some EvUpdateSites.
Proof.
  induction k as [| k IH]; [reflexivity |].
  change (rounds (S (S k)) d) with (EvUpdateSites :: EvSleep d :: rounds (S k) d).
  rewrite !last_cons, IH. reflexivity.
Qed.

Lemma filter_skeleton (f : event -> bool) evs :
  (forall ev, f ev = true -> is_round_marker ev = true) ->
  List.filter f (skeleton evs) = List.filter f evs.
Proof.
  intros Hf. unfold skeleton. induction evs as [| ev evs IH]; [reflexivity |].
  cbn [List.filter]. destruct (is_round_marker ev) eqn:Em; cbn [List.filter]; rewrite IH.
  - reflexivity.
  - destruct (f ev) eqn:Ef; [| reflexivity]. apply Hf in Ef. congruence.
Qed.

Lemma new_events_app st st' evs : trace st' = trace st ++ evs -> new_events st st' = evs.
Proof. intros H. unfold new_events. now rewrite H, drop_app_length. Qed.

(** The script itself: six rounds, nine seconds apart. *)
Lemma main_rounds w fuel st :
  (6 <= fuel)%nat ->
  exists st',
    main w fuel st = (Ok (Some max_iterations), st') /\
    skeleton (new_events st st') = rounds 6 delay.
Proof.
  intros Hfuel. unfold main, time_time, print.
  set (st0 := {| tick := S (tick st); trace := trace st ++ [EvClock] |}).
  destruct (while_loop_rounds w delay max_iterations fuel 0 st0
              ltac:(change (Z.to_nat (max_iterations - 0)) with 6%nat; exact Hfuel))
    as (st1 & evs & El & Ht & Hs).
  eexists. split.
  - unfold mbind, M_bind, call. fold st0. rewrite El. cbn. reflexivity.
  - cbn [trace]. erewrite new_events_app.
    2:{ cbn [trace]. rewrite Ht. unfold st0. cbn [trace]. rewrite <- !app_assoc. reflexivity. }
    rewrite !skeleton_app, Hs. reflexivity.
Qed.



(** The trace of the script when every fetch fails. *)
Example main_when_fetch_fails :
  (main failing_world 6 initial).1 = Ok (Some 6) /\
  skeleton (trace (main failing_world 6 initial).2)
  = [EvUpdateSites; EvSleep 9; EvUpdateSites; EvSleep 9; EvUpdateSites; EvSleep 9;
     EvUpdateSites; EvSleep 9; EvUpdateSites; EvSleep 9; EvUpdateSites].
Proof. split; vm_compute; reflexivity. Qed.


